(** * Morning digest bot: a shallow embedding of [main.py]

    The development follows the source file top to bottom:

    - [PyStr]   Python [str] values as sequences of code points, with the
                methods the bot calls ([strip], [rstrip], [lower], [in],
                [join], [len], slicing) and decimal rendering of [int];
    - [Json]    the [json] module: values, [json.loads] (the scanner of the
                standard library, strict mode) and [json.dumps] of a list of
                integers with [indent=2];
    - [Bot]     the functions of [main.py]: subscriber persistence, news
                selection, message rendering, the [/start] handler and the
                daily digest job, over an explicit world (object heap,
                [bot_data], subscriber file, network trace, log);
    - [BotMain] [validate_env] and the set-up part of [main].

    [fetch_weather] and [_utc_day_range_for_yesterday] are not modelled:
    the first rounds floating-point readings and capitalises a localised
    text, the second reads the clock.  The outcome of [fetch_weather] is an
    input of the digest. *)

From Stdlib Require Import ZArith List Decimal DecimalFacts DecimalPos DecimalZ Lia.
From Stdlib Require Import String Ascii.
From stdpp Require Import gmap sets list sorting.

Local Open Scope Z_scope.

(* ===================================================================== *)
(** * Python strings *)
(* ===================================================================== *)

Module PyStr.

(** A [str] is a sequence of Unicode code points; [len] is [length]. *)
Definition char := N.
Definition str := list char.

(** UTF-8 decoding, used to read the literals of the source file (which are
    written here as byte strings).  Well-formed input is assumed: the
    literals are. *)
Fixpoint utf8_decode_aux (fuel : nat) (bs : list N) : str :=
  match fuel with
  | O => []
  | S fuel =>
    match bs with
    | [] => []
    | b0 :: r =>
      if (b0 <? 128)%N then b0 :: utf8_decode_aux fuel r
      else if (b0 <? 224)%N then
        match r with
        | b1 :: r => ((b0 - 192) * 64 + (b1 - 128))%N :: utf8_decode_aux fuel r
        | _ => []
        end
      else if (b0 <? 240)%N then
        match r with
        | b1 :: b2 :: r =>
          ((b0 - 224) * 4096 + (b1 - 128) * 64 + (b2 - 128))%N
            :: utf8_decode_aux fuel r
        | _ => []
        end
      else
        match r with
        | b1 :: b2 :: b3 :: r =>
          ((b0 - 240) * 262144 + (b1 - 128) * 4096 + (b2 - 128) * 64
           + (b3 - 128))%N :: utf8_decode_aux fuel r
        | _ => []
        end
    end
  end.

Definition lit (s : string) : str :=
  let bs := map N_of_ascii (list_ascii_of_string s) in
  utf8_decode_aux (length bs) bs.

(** [str.isspace] on one character (the white-space table of CPython). *)
Definition isspace (c : char) : bool :=
  ((9 <=? c) && (c <=? 13) || (28 <=? c) && (c <=? 32)
   || (c =? 133) || (c =? 160) || (c =? 5760)
   || (8192 <=? c) && (c <=? 8202)
   || (c =? 8232) || (c =? 8233) || (c =? 8239) || (c =? 8287)
   || (c =? 12288))%N.

Fixpoint lstrip (s : str) : str :=
  match s with
  | c :: r => if isspace c then lstrip r else s
  | [] => []
  end.

Definition rstrip (s : str) : str := rev (lstrip (rev s)).

Definition strip (s : str) : str := rstrip (lstrip s).

(** [str.lower].  Only the ASCII letters are mapped; every other code point
    is kept as it is. *)
Definition lower_char (c : char) : char :=
  if ((65 <=? c) && (c <=? 90))%N then (c + 32)%N else c.

Definition lower (s : str) : str := map lower_char s.

Definition str_eqb (a b : str) : bool := bool_decide (a = b).

(** [p] is a prefix of [s], by comparison of characters. *)
Fixpoint starts_with (p s : str) : bool :=
  match p, s with
  | [], _ => true
  | a :: p', b :: s' => (a =? b)%N && starts_with p' s'
  | _ :: _, [] => false
  end.

(** [needle in s]: substring search. *)
Fixpoint contains (needle s : str) : bool :=
  starts_with needle s ||
  match s with
  | [] => false
  | _ :: r => contains needle r
  end.

(** [sep.join(parts)] *)
Fixpoint join (sep : str) (parts : list str) : str :=
  match parts with
  | [] => []
  | [p] => p
  | p :: rest => p ++ sep ++ join sep rest
  end.

(** Decimal digits. *)
Fixpoint uint_chars (d : Decimal.uint) : str :=
  match d with
  | Nil => []
  | D0 d => 48%N :: uint_chars d
  | D1 d => 49%N :: uint_chars d
  | D2 d => 50%N :: uint_chars d
  | D3 d => 51%N :: uint_chars d
  | D4 d => 52%N :: uint_chars d
  | D5 d => 53%N :: uint_chars d
  | D6 d => 54%N :: uint_chars d
  | D7 d => 55%N :: uint_chars d
  | D8 d => 56%N :: uint_chars d
  | D9 d => 57%N :: uint_chars d
  end.

(** [str(z)] for a Python [int] (also what an f-string and [json.dumps]
    produce). *)
Definition int_str (z : Z) : str :=
  match Z.to_int z with
  | Decimal.Pos d => uint_chars d
  | Decimal.Neg d => 45%N :: uint_chars d
  end.

Definition is_digit (c : char) : bool := ((48 <=? c) && (c <=? 57))%N.

Definition push_digit (c : char) (d : Decimal.uint) : Decimal.uint :=
  match c with
  | 48%N => D0 d | 49%N => D1 d | 50%N => D2 d | 51%N => D3 d
  | 52%N => D4 d | 53%N => D5 d | 54%N => D6 d | 55%N => D7 d
  | 56%N => D8 d | _ => D9 d
  end.

(** The longest run of ASCII digits at the head of [s], and what follows. *)
Fixpoint lex_digits (s : str) : Decimal.uint * str :=
  match s with
  | c :: r =>
    if is_digit c then
      let '(d, r') := lex_digits r in (push_digit c d, r')
    else (Nil, s)
  | [] => (Nil, [])
  end.

End PyStr.

(* ===================================================================== *)
(** * The [json] module *)
(* ===================================================================== *)

Module Json.
Import PyStr.

(** What [json.loads] builds.  A number with a fraction or an exponent, and
    the constants [NaN], [Infinity], [-Infinity], become a Python [float]:
    the value keeps the text of the literal, floating-point rounding is not
    modelled.  An object keeps its members in source order; a Python [dict]
    answers a repeated key with its last value ([get]). *)
#[local] Set Warnings "-register-all".
Inductive value : Type :=
| JNull
| JBool (b : bool)
| JInt (z : Z)
| JFloat (lexeme : str)
| JStr (s : str)
| JArr (items : list value)
| JObj (members : list (str * value)).

(** [d.get(k)] on the members of an object: the last binding of [k]. *)
Fixpoint get (k : str) (members : list (str * value)) : option value :=
  match members with
  | [] => None
  | (k', v) :: rest =>
    match get k rest with
    | Some v' => Some v'
    | None => if str_eqb k k' then Some v else None
    end
  end.

Definition is_ws (c : char) : bool :=
  ((c =? 32) || (c =? 9) || (c =? 10) || (c =? 13))%N.

Fixpoint skip_ws (s : str) : str :=
  match s with
  | c :: r => if is_ws c then skip_ws r else s
  | [] => []
  end.

Definition hex_val (c : char) : option N :=
  if ((48 <=? c) && (c <=? 57))%N then Some (c - 48)%N
  else if ((97 <=? c) && (c <=? 102))%N then Some (c - 87)%N
  else if ((65 <=? c) && (c <=? 70))%N then Some (c - 55)%N
  else None.

(** Four hexadecimal digits of a [\uXXXX] escape. *)
Definition hex4 (s : str) : option (N * str) :=
  match s with
  | a :: b :: c :: d :: r =>
    match hex_val a, hex_val b, hex_val c, hex_val d with
    | Some a, Some b, Some c, Some d =>
      Some (a * 4096 + b * 256 + c * 16 + d, r)%N
    | _, _, _, _ => None
    end
  | _ => None
  end.

Definition is_high_surrogate (u : N) : bool := ((55296 <=? u) && (u <=? 56319))%N.
Definition is_low_surrogate (u : N) : bool := ((56320 <=? u) && (u <=? 57343))%N.

Definition simple_escape (e : char) : option char :=
  match e with
  | 34%N => Some 34%N     (* quote *)
  | 92%N => Some 92%N     (* backslash *)
  | 47%N => Some 47%N     (* slash *)
  | 98%N => Some 8%N      (* b: backspace *)
  | 102%N => Some 12%N    (* f: form feed *)
  | 110%N => Some 10%N    (* n: line feed *)
  | 114%N => Some 13%N    (* r: carriage return *)
  | 116%N => Some 9%N     (* t: tab *)
  | _ => None
  end.

(** [scanstring], strict mode, entered after the opening quote: the decoded
    string and the input after the closing quote. *)
Fixpoint scanstring (fuel : nat) (s : str) : option (str * str) :=
  match fuel with
  | O => None
  | S fuel =>
    match s with
    | [] => None                                  (* unterminated string *)
    | 34%N :: r => Some ([], r)
    | 92%N :: r =>
      match r with
      | [] => None
      | 117%N :: r1 =>
        match hex4 r1 with
        | None => None                            (* invalid \uXXXX escape *)
        | Some (u, r2) =>
          let single :=
            match scanstring fuel r2 with
            | Some (rest, r') => Some (u :: rest, r')
            | None => None
            end in
          if is_high_surrogate u then
            match r2 with
            | 92%N :: 117%N :: r3 =>
              match hex4 r3 with
              | None => None
              | Some (u2, r4) =>
                if is_low_surrogate u2 then
                  match scanstring fuel r4 with
                  | Some (rest, r') =>
                    Some ((65536 + (u - 55296) * 1024 + (u2 - 56320))%N :: rest, r')
                  | None => None
                  end
                else single
              end
            | _ => single
            end
          else single
        end
      | e :: r1 =>
        match simple_escape e with
        | None => None                            (* invalid \escape *)
        | Some c =>
          match scanstring fuel r1 with
          | Some (rest, r') => Some (c :: rest, r')
          | None => None
          end
        end
      end
    | c :: r =>
      if (c <=? 31)%N then None                   (* control character *)
      else
        match scanstring fuel r with
        | Some (rest, r') => Some (c :: rest, r')
        | None => None
        end
    end
  end.

(** The number matcher of the scanner: an optional minus sign; an integer
    part that is a single zero or a non-zero digit followed by digits; an
    optional fraction (a dot and at least one digit); an optional exponent
    (e or E, an optional sign, at least one digit). *)
Definition match_int_part (s : str) : option (Decimal.uint * str) :=
  match s with
  | c :: r =>
    if (c =? 48)%N then Some (D0 Nil, r)
    else if is_digit c then Some (lex_digits s)
    else None
  | [] => None
  end.

Definition match_frac (s : str) : option str :=
  match s with
  | 46%N :: c :: r => if is_digit c then Some (snd (lex_digits (c :: r))) else None
  | _ => None
  end.

Definition match_exp (s : str) : option str :=
  match s with
  | e :: r =>
    if ((e =? 101) || (e =? 69))%N then
      let r1 := match r with
                | sg :: r' => if ((sg =? 43) || (sg =? 45))%N then r' else r
                | [] => r
                end in
      match r1 with
      | c :: _ => if is_digit c then Some (snd (lex_digits r1)) else None
      | [] => None
      end
    else None
  | [] => None
  end.

Definition match_sign (s : str) : bool * str :=
  match s with
  | 45%N :: r => (true, r)
  | _ => (false, s)
  end.

Definition match_number (s : str) : option (value * str) :=
  let '(neg, r) := match_sign s in
  match match_int_part r with
  | None => None
  | Some (d, r1) =>
    let '(has_frac, r2) := match match_frac r1 with
                           | Some r2 => (true, r2)
                           | None => (false, r1)
                           end in
    let '(has_exp, r3) := match match_exp r2 with
                          | Some r3 => (true, r3)
                          | None => (false, r2)
                          end in
    if has_frac || has_exp then
      Some (JFloat (take (length s - length r3)%nat s), r3)
    else
      Some (JInt (Z.of_int (if neg then Decimal.Neg d else Decimal.Pos d)), r3)
  end.

(** [scan_once] and the loops of [JSONArray] and [JSONObject].  The fuel
    bounds the number of nested calls; [loads] gives two units per
    character, and every second nested call has consumed a character. *)
Fixpoint scan_once (fuel : nat) (s : str) : option (value * str) :=
  match fuel with
  | O => None
  | S fuel =>
    match s with
    | [] => None
    | 34%N :: r =>
      match scanstring (length r) r with
      | Some (x, r') => Some (JStr x, r')
      | None => None
      end
    | 123%N :: r =>
      match skip_ws r with
      | 125%N :: r' => Some (JObj [], r')
      | r1 =>
        match scan_members fuel r1 with
        | Some (ms, r') => Some (JObj ms, r')
        | None => None
        end
      end
    | 91%N :: r =>
      match skip_ws r with
      | 93%N :: r' => Some (JArr [], r')
      | r1 =>
        match scan_items fuel r1 with
        | Some (vs, r') => Some (JArr vs, r')
        | None => None
        end
      end
    | _ :: _ =>
      if starts_with (lit "null") s then Some (JNull, drop 4 s)
      else if starts_with (lit "true") s then Some (JBool true, drop 4 s)
      else if starts_with (lit "false") s then Some (JBool false, drop 5 s)
      else if starts_with (lit "NaN") s then Some (JFloat (lit "NaN"), drop 3 s)
      else if starts_with (lit "Infinity") s then
        Some (JFloat (lit "Infinity"), drop 8 s)
      else if starts_with (lit "-Infinity") s then
        Some (JFloat (lit "-Infinity"), drop 9 s)
      else match_number s
    end
  end

with scan_items (fuel : nat) (s : str) : option (list value * str) :=
  match fuel with
  | O => None
  | S fuel =>
    match scan_once fuel s with
    | None => None
    | Some (v, r) =>
      match skip_ws r with
      | 93%N :: r' => Some ([v], r')
      | 44%N :: r' =>
        match scan_items fuel (skip_ws r') with
        | Some (vs, r'') => Some (v :: vs, r'')
        | None => None
        end
      | _ => None                                 (* expecting ',' delimiter *)
      end
    end
  end

with scan_members (fuel : nat) (s : str) : option (list (str * value) * str) :=
  match fuel with
  | O => None
  | S fuel =>
    match s with
    | 34%N :: r =>
      match scanstring (length r) r with
      | None => None
      | Some (k, r1) =>
        match skip_ws r1 with
        | 58%N :: r2 =>
          match scan_once fuel (skip_ws r2) with
          | None => None
          | Some (v, r3) =>
            match skip_ws r3 with
            | 125%N :: r' => Some ([(k, v)], r')
            | 44%N :: r' =>
              match scan_members fuel (skip_ws r') with
              | Some (ms, r'') => Some ((k, v) :: ms, r'')
              | None => None
              end
            | _ => None
            end
          end
        | _ => None                               (* expecting ':' delimiter *)
        end
      end
    | _ => None                                   (* expecting property name *)
    end
  end.

(** [json.loads(s)]; [None] stands for [JSONDecodeError].  Two limits of
    the interpreter are outside this function: the recursion limit (arrays
    and objects nested about a thousand deep end in [RecursionError]) and
    the limit on [int] conversion (a literal of more than 4300 digits ends
    in [ValueError]).  A statement about the text of a file that depends on
    them keeps the text within [within_limits], below. *)
Definition loads (s : str) : option value :=
  match s with
  | 65279%N :: _ => None                          (* unexpected BOM *)
  | _ =>
    match scan_once (2 * length s + 2) (skip_ws s) with
    | Some (v, r) =>
      match skip_ws r with
      | [] => Some v
      | _ :: _ => None                            (* extra data *)
      end
    | None => None
    end
  end.

(** [json.dumps(xs, ensure_ascii=False, indent=2)] for a list of [int]:
    one item per line, indented by two spaces, separated by a comma. *)
Definition newline_indent : str := [10%N; 32%N; 32%N].
Definition separator : str := 44%N :: newline_indent.

Definition dumps_ints (xs : list Z) : str :=
  match xs with
  | [] => lit "[]"
  | _ :: _ =>
    lit "[" ++ newline_indent
      ++ join separator (map int_str xs)
      ++ [10%N] ++ lit "]"
  end.

End Json.

(* ===================================================================== *)
(** * The bot *)
(* ===================================================================== *)

Module Bot.
Import PyStr.
Export Json.

(** ** Exceptions, results, the abstract part of the runtime *)

(** The exception classes that occur.  [UnicodeDecodeError] and
    [JSONDecodeError] are subclasses of [ValueError]. *)
Inductive exn : Type :=
| OSError
| ValueError
| UnicodeDecodeError
| JSONDecodeError
| TypeError
| OverflowError
| AttributeError
| RuntimeError
| HTTPStatusError
| TransportError.

Inductive pyresult (A : Type) : Type :=
| Raise (e : exn)
| Return (a : A).
Arguments Raise {A} e.
Arguments Return {A} a.

#[global] Instance pyresult_bind : MBind pyresult := fun A B k m =>
  match m with
  | Raise e => Raise e
  | Return a => k a
  end.

Definition is_ValueError (e : exn) : bool :=
  match e with
  | ValueError | UnicodeDecodeError | JSONDecodeError => true
  | _ => false
  end.

(** Conversions of the Python runtime that the model leaves abstract:
    [int(s)] for a [str] ([None] is [ValueError]), and, for a [float] given
    by the text of its literal, [int(x)] (which raises on [nan] and on an
    infinity) and [bool(x)]. *)
Record runtime : Type := {
  int_of_str : str -> option Z;
  int_of_float : str -> pyresult Z;
  float_bool : str -> bool
}.

(** ** Constants *)

Definition MAX_DESCRIPTION_LEN : nat := 260.

(** ** The log *)

Inductive log_entry : Type :=
| WarnCannotLoad (e : exn)          (* Cannot load subscribers: %s *)
| WarnWeatherFailed (e : exn)       (* Weather request failed: %s *)
| WarnNewsFailed (e : exn)          (* News request failed: %s *)
| WarnCannotSend (chat_id : Z) (err : str)  (* Cannot send message to %s: %s *)
| InfoNoSubscribers.                (* No subscribers yet, skip digest *)

Definition is_warning (l : log_entry) : bool :=
  match l with
  | InfoNoSubscribers => false
  | _ => true
  end.

(** ** The subscriber file *)

(** What [SUBSCRIBERS_FILE] is when it is looked at: absent; present but
    [read_text] raises [OSError]; present with bytes that are not UTF-8
    ([UnicodeDecodeError]); present with a text; out of reach, when
    [exists()] itself raises [OSError] ([PermissionError], on a directory
    that may not be searched). *)
Inductive file_state : Type :=
| FMissing
| FUnreadable
| FUndecodable
| FText (content : str)
| FInaccessible.

(** [SUBSCRIBERS_FILE.exists()]. *)
Definition exists_ (f : file_state) : pyresult bool :=
  match f with
  | FMissing => Return false
  | FInaccessible => Raise OSError
  | FUnreadable | FUndecodable | FText _ => Return true
  end.

Definition read_text (f : file_state) : pyresult str :=
  match f with
  | FMissing | FUnreadable | FInaccessible => Raise OSError
  | FUndecodable => Raise UnicodeDecodeError
  | FText s => Return s
  end.

Section Persistence.
Variable rt : runtime.

(** [int(item)] for an item of the decoded list. *)
Definition py_int (v : value) : pyresult Z :=
  match v with
  | JInt z => Return z
  | JBool b => Return (if b then 1 else 0)
  | JFloat x => int_of_float rt x
  | JStr s =>
    match int_of_str rt s with
    | Some z => Return z
    | None => Raise ValueError
    end
  | JNull | JArr _ | JObj _ => Raise TypeError
  end.

(** [{int(item) for item in data}]: items are converted in order, the first
    exception ends the comprehension. *)
Fixpoint int_set (data : list value) : pyresult (gset Z) :=
  match data with
  | [] => Return ∅
  | item :: rest =>
    z ← py_int item;
    s ← int_set rest;
    Return ({[z]} ∪ s)
  end.

(** The body of the [try] block. *)
Definition load_try (f : file_state) : pyresult (gset Z) :=
  text ← read_text f;
  match loads text with
  | None => Raise JSONDecodeError
  | Some (JArr data) => int_set data
  | Some _ => Return ∅
  end.

(** [load_subscribers()]: the outcome and what it logs.  The test of line
    38 stands before the [try]: what [exists()] raises leaves the
    function. *)
Definition load_subscribers (f : file_state) : pyresult (gset Z) * list log_entry :=
  match exists_ f with
  | Raise e => (Raise e, [])
  | Return false => (Return ∅, [])
  | Return true =>
    match load_try f with
    | Return s => (Return s, [])
    | Raise e =>
      if match e with OSError => true | _ => is_ValueError e end
      then (Return ∅, [WarnCannotLoad e])
      else (Raise e, [])
    end
  end.

End Persistence.

(** [sorted(subscribers)] *)
Definition sorted (s : gset Z) : list Z := merge_sort Z.le (elements s).

(** The text [save_subscribers] writes. *)
Definition subscribers_text (s : gset Z) : str := dumps_ints (sorted s).

(** ** News *)

Record news : Type := {
  news_title : str;
  news_description : str;
  news_url : str
}.

(** The response of [client.get]: the status and what [response.json()]
    gives ([None] when the body is not JSON). *)
Record response : Type := {
  status_code : Z;
  json_body : option value
}.

(** [response.raise_for_status()]: any status outside 2xx raises. *)
Definition is_success (status : Z) : bool := (200 <=? status) && (status <=? 299).

Section News.
Variable rt : runtime.

(** [bool(v)] for a decoded JSON value. *)
Definition truthy (v : value) : bool :=
  match v with
  | JNull => false
  | JBool b => b
  | JInt z => negb (z =? 0)
  | JFloat x => float_bool rt x
  | JStr s => negb (str_eqb s [])
  | JArr l => match l with [] => false | _ => true end
  | JObj l => match l with [] => false | _ => true end
  end.

(** [(article.get(key) or "").strip()] *)
Definition field_text (key : str) (members : list (str * value)) : pyresult str :=
  let v := default JNull (get key members) in
  if truthy v then
    match v with
    | JStr s => Return (strip s)
    | _ => Raise AttributeError
    end
  else Return (strip []).

(** Lines 116 and 117: the description as it is stored. *)
Definition clip (description : str) : str :=
  if (MAX_DESCRIPTION_LEN <? length description)%nat
  then rstrip (take (MAX_DESCRIPTION_LEN - 3) description) ++ lit "..."
  else description.

Definition nonempty (s : str) : bool := negb (str_eqb s []).

(** The [for article in articles] loop. *)
Fixpoint select_article (articles : list value) : pyresult (option news) :=
  match articles with
  | [] => Return None
  | article :: rest =>
    match article with
    | JObj members =>
      title ← field_text (lit "title") members;
      description ← field_text (lit "description") members;
      url ← field_text (lit "url") members;
      if nonempty title && nonempty description && nonempty url then
        Return (Some {| news_title := title;
                        news_description := clip description;
                        news_url := url |})
      else select_article rest
    | _ => Raise AttributeError
    end
  end.

(** What the [for] statement iterates over. *)
Definition iterate (v : value) : pyresult (list value) :=
  match v with
  | JArr items => Return items
  | JStr s => Return (map (fun c => JStr [c]) s)
  | JObj members => Return (map (fun kv => JStr (fst kv)) members)
  | _ => Raise TypeError
  end.

(** [payload.get("status") == "error"] *)
Definition status_is_error (payload : list (str * value)) : bool :=
  match get (lit "status") payload with
  | Some (JStr s) => str_eqb s (lit "error")
  | _ => false
  end.

(** [fetch_positive_news(client)], given the outcome of [client.get]. *)
Definition fetch_positive_news (got : pyresult response) : pyresult (option news) :=
  resp ← got;
  if status_code resp =? 429 then Raise RuntimeError
  else if negb (is_success (status_code resp)) then Raise HTTPStatusError
  else
    match json_body resp with
    | None => Raise JSONDecodeError
    | Some (JObj payload) =>
      if status_is_error payload then Raise RuntimeError
      else
        articles ← iterate (default (JArr []) (get (lit "articles") payload));
        select_article articles
    | Some _ => Raise AttributeError
    end.

End News.

(** ** Rendering *)

(** What [fetch_weather] returns: a dict with exactly these four keys.  The
    function itself rounds floating-point readings and is not modelled; its
    outcome is an input of the digest. *)
Record weather : Type := {
  temp : Z;
  feels_like : Z;
  humidity : Z;
  weather_description : str
}.

Definition WEATHER_UNAVAILABLE : str :=
  lit "🌡 Погода: временно недоступна (API не ответил или лимит исчерпан).".

Definition NEWS_UNAVAILABLE : str :=
  lit "Сегодня не удалось получить позитивную новость "
  ++ lit "(не найдена или API временно недоступен).".

Definition weather_lines (w : weather) : list str :=
  [ lit "🌡 Температура: " ++ int_str (temp w) ++ lit "°C";
    lit "🤍 Ощущается как: " ++ int_str (feels_like w) ++ lit "°C";
    lit "💧 Влажность: " ++ int_str (humidity w) ++ lit "%";
    lit "🌤 Описание: " ++ weather_description w ].

Definition news_lines (n : news) : list str :=
  [ news_title n; news_description n; news_url n ].

(** [build_message(weather, news)]: [lines] grows by [append] and [extend],
    and is joined at the end. *)
Definition build_message (weather_data : option weather) (news_data : option news) : str :=
  let lines := [ lit "Доброе утро ☀️"; []; lit "📍 Москва" ] in
  let lines :=
    match weather_data with
    | None => lines ++ [ WEATHER_UNAVAILABLE ]
    | Some w => lines ++ weather_lines w
    end in
  let lines := lines ++ [ []; lit "📰 Хорошая новость дня:" ] in
  let lines :=
    match news_data with
    | None => lines ++ [ NEWS_UNAVAILABLE ]
    | Some n => lines ++ news_lines n
    end in
  join [10%N] lines.

(** [build_daily_message()], from the two results of [asyncio.gather] with
    [return_exceptions=True]: the message and the warnings logged. *)
Definition build_daily_message (weather_result : pyresult weather)
    (news_result : pyresult (option news)) : str * list log_entry :=
  let '(weather_data, log1) :=
    match weather_result with
    | Raise e => (None, [WarnWeatherFailed e])
    | Return w => (Some w, [])
    end in
  let '(news_data, log2) :=
    match news_result with
    | Raise e => (None, [WarnNewsFailed e])
    | Return n => (n, [])
    end in
  (build_message weather_data news_data, log1 ++ log2).

(** ** The world of the running bot *)

(** The value of [context.bot_data["subscribers"]] is a reference to an
    object: a [set] in every run of [main], anything iterable as far as
    the handler is concerned (it tests [isinstance(subscribers, set)]). *)
Inductive pyobj : Type :=
| OSet (s : gset Z)
| OList (l : list Z).

(** [set(obj)] *)
Definition to_set (o : pyobj) : gset Z :=
  match o with
  | OSet s => s
  | OList l => list_to_set l
  end.

(** An inbound update: [effective_chat] (its id) and whether there is an
    [effective_message] to reply to. *)
Record update : Type := {
  effective_chat : option Z;
  effective_message : bool
}.

(** What the process does to the outside, in order. *)
Inductive event : Type :=
| EvFetchWeather
| EvFetchNews
| EvSend (chat_id : Z) (text : str)
| EvReply (chat_id : Z)
| EvWrite (content : str).

Record world : Type := {
  heap : gmap nat pyobj;            (* the objects, by address *)
  subscribers_ref : option nat;     (* bot_data.get("subscribers") *)
  file : file_state;                (* subscribers.json *)
  trace : list event;
  log : list log_entry;
  inbox : list update               (* updates received and not yet handled *)
}.

Definition deref (h : gmap nat pyobj) (l : nat) : pyobj :=
  default (OSet ∅) (h !! l).

Definition emit (e : event) (w : world) : world :=
  {| heap := heap w; subscribers_ref := subscribers_ref w; file := file w;
     trace := trace w ++ [e]; log := log w; inbox := inbox w |}.

Definition logs (es : list log_entry) (w : world) : world :=
  {| heap := heap w; subscribers_ref := subscribers_ref w; file := file w;
     trace := trace w; log := log w ++ es; inbox := inbox w |}.

(** [save_subscribers(subscribers)]; the write is taken to succeed. *)
Definition save_subscribers (s : gset Z) (w : world) : world :=
  emit (EvWrite (subscribers_text s))
    {| heap := heap w; subscribers_ref := subscribers_ref w;
       file := FText (subscribers_text s);
       trace := trace w; log := log w; inbox := inbox w |}.

(** Storing a new object, and binding [bot_data["subscribers"]]. *)
Definition alloc (o : pyobj) (w : world) : nat * world :=
  let l := fresh (dom (heap w)) in
  (l, {| heap := <[l := o]> (heap w); subscribers_ref := subscribers_ref w;
         file := file w; trace := trace w; log := log w; inbox := inbox w |}).

Definition store (l : nat) (o : pyobj) (w : world) : world :=
  {| heap := <[l := o]> (heap w); subscribers_ref := subscribers_ref w;
     file := file w; trace := trace w; log := log w; inbox := inbox w |}.

Definition bind_subscribers (l : nat) (w : world) : world :=
  {| heap := heap w; subscribers_ref := Some l;
     file := file w; trace := trace w; log := log w; inbox := inbox w |}.

(** ** The [/start] handler *)

(** [start_handler(update, context)], up to and including the call of
    [reply_text]; there is no suspension point before it. *)
Definition start_handler (u : update) (w : world) : world :=
  match effective_chat u with
  | None => w
  | Some chat_id =>
    (* subscribers = context.bot_data.setdefault("subscribers", set()) *)
    let '(l, w) :=
      match subscribers_ref w with
      | Some l => (l, w)
      | None => let '(l, w) := alloc (OSet ∅) w in (l, bind_subscribers l w)
      end in
    (* if not isinstance(subscribers, set): subscribers = set(subscribers) *)
    let '(l, w) :=
      match deref (heap w) l with
      | OSet _ => (l, w)
      | OList xs => alloc (OSet (list_to_set xs)) w
      end in
    (* subscribers.add(chat_id) *)
    let s := {[chat_id]} ∪ to_set (deref (heap w) l) in
    let w := store l (OSet s) w in
    (* context.bot_data["subscribers"] = subscribers *)
    let w := bind_subscribers l w in
    let w := save_subscribers s w in
    if effective_message u then emit (EvReply chat_id) w else w
  end.

(** While a coroutine is suspended at an [await], the event loop runs
    other callbacks: here, the handler on the next [n] updates of the
    inbox. *)
Fixpoint run_handlers (n : nat) (w : world) : world :=
  match n with
  | O => w
  | S n =>
    match inbox w with
    | [] => w
    | u :: rest =>
      run_handlers n
        (start_handler u
           {| heap := heap w; subscribers_ref := subscribers_ref w;
              file := file w; trace := trace w; log := log w; inbox := rest |})
    end
  end.

(** ** The daily digest *)

Inductive delivery : Type :=
| Delivered
| Failed (exc_text : str).          (* str(exc) of the exception raised *)

(** What the outside answers during one cycle. *)
Record env : Type := {
  weather_task : pyresult weather;              (* fetch_weather(client) *)
  news_got : pyresult response;                 (* client.get(NEWS_URL, ...) *)
  send_message : Z -> str -> delivery           (* context.bot.send_message *)
}.

(** The test of line 211 on [str(exc)]. *)
Definition is_stale_error (exc_text : str) : bool :=
  let err := lower exc_text in
  contains (lit "forbidden") err || contains (lit "chat not found") err.

Section Digest.
Variable rt : runtime.
Variable e : env.
(** [sched i] is the number of updates the event loop handles while the
    job is suspended at its [i]-th [await]. *)
Variable sched : nat -> nat.

(** The [for chat_id in set(subscribers)] loop over the snapshot. *)
Fixpoint deliver_loop (message : str) (chats : list Z) (i : nat)
    (stale_chat_ids : gset Z) (w : world) : gset Z * world :=
  match chats with
  | [] => (stale_chat_ids, w)
  | chat_id :: rest =>
    let w := emit (EvSend chat_id message) w in
    let w := run_handlers (sched i) w in
    match send_message e chat_id message with
    | Delivered => deliver_loop message rest (S i) stale_chat_ids w
    | Failed exc_text =>
      let w := logs [WarnCannotSend chat_id exc_text] w in
      let stale_chat_ids :=
        if is_stale_error exc_text then {[chat_id]} ∪ stale_chat_ids
        else stale_chat_ids in
      deliver_loop message rest (S i) stale_chat_ids w
    end
  end.

(** [send_daily_digest(context)] *)
Definition send_daily_digest (w : world) : world :=
  match subscribers_ref w with
  | None => logs [InfoNoSubscribers] w
  | Some subscribers =>
    if bool_decide (to_set (deref (heap w) subscribers) = ∅)
    then logs [InfoNoSubscribers] w
    else
      (* message = await build_daily_message() *)
      let w := emit EvFetchNews (emit EvFetchWeather w) in
      let w := run_handlers (sched 0) w in
      let '(message, warnings) :=
        build_daily_message (weather_task e) (fetch_positive_news rt (news_got e)) in
      let w := logs warnings w in
      let '(stale_chat_ids, w) :=
        deliver_loop message (elements (to_set (deref (heap w) subscribers))) 1 ∅ w in
      if bool_decide (stale_chat_ids = ∅) then w
      else
        let updated := to_set (deref (heap w) subscribers) ∖ stale_chat_ids in
        let '(l, w) := alloc (OSet updated) w in
        let w := bind_subscribers l w in
        save_subscribers updated w
  end.

End Digest.

End Bot.


(* ===================================================================== *)
(** * Start-up *)
(* ===================================================================== *)

Module BotMain.
Import PyStr.
Import Bot.

(** [validate_env()], given the three module constants (each is the value of
    an environment variable, or the empty string).  [Some message] stands
    for [raise RuntimeError(message)]. *)
Definition validate_env (TELEGRAM_TOKEN OPENWEATHER_API_KEY NEWS_API_KEY : str)
    : option str :=
  let missing : list str := [] in
  let missing :=
    if str_eqb TELEGRAM_TOKEN [] then missing ++ [lit "TELEGRAM_TOKEN"]
    else missing in
  let missing :=
    if str_eqb OPENWEATHER_API_KEY [] then missing ++ [lit "OPENWEATHER_API_KEY"]
    else missing in
  let missing :=
    if str_eqb NEWS_API_KEY [] then missing ++ [lit "NEWS_API_KEY"]
    else missing in
  match missing with
  | [] => None
  | _ :: _ =>
    Some (lit "Missing required environment variables: " ++ join (lit ", ") missing)
  end.

(** [main()] up to the registration of the job (lines 234 to 246): the
    environment is validated, then [bot_data["subscribers"]] is bound to the
    set [load_subscribers()] returns.  The result is the world in which
    polling starts, with what was logged on the way. *)
Definition main_setup (rt : runtime)
    (TELEGRAM_TOKEN OPENWEATHER_API_KEY NEWS_API_KEY : str) (f : file_state)
    : pyresult world * list log_entry :=
  match validate_env TELEGRAM_TOKEN OPENWEATHER_API_KEY NEWS_API_KEY with
  | Some _ => (Raise RuntimeError, [])
  | None =>
    match load_subscribers rt f with
    | (Raise e, logged) => (Raise e, logged)
    | (Return s, logged) =>
      (Return {| heap := {[ 0%nat := OSet s ]};
                 subscribers_ref := Some 0%nat;
                 file := f;
                 trace := [];
                 log := logged;
                 inbox := [] |},
       logged)
    end
  end.

End BotMain.

(* ===================================================================== *)
(** * Vocabulary of the statements *)
(* ===================================================================== *)

Import PyStr Bot.

(** ** Strings and JSON text *)

(** [needle] occurs in [s]. *)
Definition occurs (needle s : str) : Prop :=
  exists pre post, s = pre ++ needle ++ post.

Definition not_digit_head (s : str) : Prop :=
  match s with
  | c :: _ => is_digit c = false
  | [] => True
  end.

(** What follows an integer in the output of [dumps_ints]: a line feed or
    a comma. *)
Definition int_follow (rest : str) : Prop :=
  match rest with
  | c :: _ => c = 10%N \/ c = 44%N
  | [] => False
  end.

Definition nl : str := [10%N].

(** ** The subscriber file *)



(** The number of opening brackets and braces of a text: no array or object
    of the text is nested deeper. *)
Fixpoint open_brackets (text : str) : nat :=
  match text with
  | [] => 0%nat
  | c :: rest =>
    ((if ((c =? 91) || (c =? 123))%N then 1 else 0) + open_brackets rest)%nat
  end.

(** The length of the longest run of decimal digits of a text, [run] digits
    having just been read: no number of the text has more digits. *)
Fixpoint digit_run (run : nat) (text : str) : nat :=
  match text with
  | [] => run
  | c :: rest =>
    if is_digit c then digit_run (S run) rest
    else Nat.max run (digit_run 0%nat rest)
  end.

Definition longest_digit_run (text : str) : nat := digit_run 0%nat text.

(** A nesting depth far below the default recursion limit of the
    interpreter (1000 frames), and the default of
    [sys.int_info.default_max_str_digits]. *)
Definition SAFE_NESTING : nat := 100%nat.
Definition MAX_STR_DIGITS : nat := 4300%nat.

(** The text stays within the limits of the interpreter that [Json.loads]
    leaves out: decoding it neither exhausts the stack nor meets an integer
    literal that is too long to convert. *)
Definition within_limits (text : str) : Prop :=
  (open_brackets text <= SAFE_NESTING)%nat
  /\ (longest_digit_run text <= MAX_STR_DIGITS)%nat.

(** ** Articles *)

(** The trimmed text of a field that is a string, [null] or absent; [None]
    for a field of another type. *)
Definition text_field (key : str) (members : list (str * value)) : option str :=
  match get key members with
  | None | Some JNull => Some []
  | Some (JStr s) => Some (strip s)
  | Some _ => None
  end.

(** Title, description and URL of an article whose three fields are texts. *)
Definition article_texts (a : value) : option (str * str * str) :=
  match a with
  | JObj members =>
    match text_field (lit "title") members,
          text_field (lit "description") members,
          text_field (lit "url") members with
    | Some t, Some d, Some u => Some (t, d, u)
    | _, _, _ => None
    end
  | _ => None
  end.

(** An article with three text fields, one of them empty once trimmed. *)
Definition unusable (a : value) : Prop :=
  exists t d u, article_texts a = Some (t, d, u) /\ (t = [] \/ d = [] \/ u = []).

(** A 2xx response whose payload is an object, not an error report, with
    the list [articles] under the key [articles]. *)
Definition upstream_ok (r : response) (articles : list value) : Prop :=
  is_success (status_code r) = true
  /\ exists payload, json_body r = Some (JObj payload)
       /\ status_is_error payload = false
       /\ get (lit "articles") payload = Some (JArr articles).

(** ** The rendered message *)

Definition expected_weather_part (wr : pyresult weather) : str :=
  match wr with
  | Raise _ => WEATHER_UNAVAILABLE
  | Return w =>
    lit "🌡 Температура: " ++ int_str (temp w) ++ lit "°C" ++ nl
    ++ lit "🤍 Ощущается как: " ++ int_str (feels_like w) ++ lit "°C" ++ nl
    ++ lit "💧 Влажность: " ++ int_str (humidity w) ++ lit "%" ++ nl
    ++ lit "🌤 Описание: " ++ weather_description w
  end.

Definition expected_news_part (nr : pyresult (option news)) : str :=
  match nr with
  | Raise _ | Return None => NEWS_UNAVAILABLE
  | Return (Some n) => news_title n ++ nl ++ news_description n ++ nl ++ news_url n
  end.

Definition expected_warnings (wr : pyresult weather) (nr : pyresult (option news))
    : list log_entry :=
  match wr with Raise e => [WarnWeatherFailed e] | Return _ => [] end
  ++ match nr with Raise e => [WarnNewsFailed e] | Return _ => [] end.

(** ** Observations of a world *)

(** The set [bot_data] holds at the moment. *)
Definition current_subscribers (w : world) : gset Z :=
  match subscribers_ref w with
  | None => ∅
  | Some l => to_set (deref (heap w) l)
  end.

(** The deliveries attempted, and the texts written to the file, in order. *)
Definition sends (tr : list event) : list (Z * str) :=
  omap (fun ev => match ev with EvSend c t => Some (c, t) | _ => None end) tr.

Definition writes (tr : list event) : list str :=
  omap (fun ev => match ev with EvWrite t => Some t | _ => None end) tr.

(** A delivery that failed with a permanent-failure marker. *)
Definition permanent (d : delivery) : bool :=
  match d with
  | Failed exc_text => is_stale_error exc_text
  | Delivered => false
  end.

(** The recipients of [subs] whose delivery of [message] fails permanently. *)
Definition unreachable (e : env) (message : str) (subs : gset Z) : gset Z :=
  filter (fun c => permanent (send_message e c message) = true) subs.

Definition send_warnings (e : env) (message : str) (chats : list Z) : list log_entry :=
  omap (fun c => match send_message e c message with
                 | Failed t => Some (WarnCannotSend c t)
                 | Delivered => None
                 end) chats.

(** The message one cycle sends. *)
Definition digest_message (rt : runtime) (e : env) : str :=
  fst (build_daily_message (weather_task e) (fetch_positive_news rt (news_got e))).

(** A command of chat [x] waits in the inbox. *)
Definition pending (x : Z) (w : world) : Prop :=
  exists u, u ∈ inbox w /\ effective_chat u = Some x.

(** Chat [x] is subscribed, in memory and in the file. *)
Definition added (x : Z) (w : world) : Prop :=
  x ∈ current_subscribers w
  /\ file w = FText (subscribers_text (current_subscribers w)).

(** [bot_data] is bound to the set at address [l], and the command of [x]
    is either waiting or has taken effect. *)
Definition tracks (l : nat) (x : Z) (w : world) : Prop :=
  subscribers_ref w = Some l
  /\ (exists s, heap w !! l = Some (OSet s))
  /\ (added x w \/ pending x w).

(** ** Inputs of the closed examples *)

(** A runtime in which no [str] and no [float] converts to an [int]. *)
Definition rejecting_runtime : runtime :=
  {| int_of_str := fun _ => None;
     int_of_float := fun _ => Raise ValueError;
     float_bool := fun _ => true |}.

(** Both upstreams are down; [answer] decides each delivery. *)
Definition offline_env (answer : Z -> delivery) : env :=
  {| weather_task := Raise TransportError;
     news_got := Raise TransportError;
     send_message := fun chat_id _ => answer chat_id |}.

(** Chat 2 is gone, every other chat receives the message. *)
Definition chat2_gone (chat_id : Z) : delivery :=
  if chat_id =? 2 then Failed (lit "Chat not found") else Delivered.

(** Chat 2 times out, every other chat receives the message. *)
Definition chat2_timeout (chat_id : Z) : delivery :=
  if chat_id =? 2 then Failed (lit "Timed out") else Delivered.

(** A world as [main] sets it up: [bot_data] bound to one set. *)
Definition world_with (s : gset Z) (waiting : list update) : world :=
  {| heap := {[ 0%nat := OSet s ]};
     subscribers_ref := Some 0%nat;
     file := FMissing;
     trace := [];
     log := [];
     inbox := waiting |}.

Definition start_from (chat_id : Z) : update :=
  {| effective_chat := Some chat_id; effective_message := true |}.

Definition article (t d u : str) : value :=
  JObj [(lit "title", JStr t); (lit "description", JStr d); (lit "url", JStr u)].

Definition news_response (articles : list value) : response :=
  {| status_code := 200;
     json_body := Some (JObj [(lit "status", JStr (lit "ok"));
                              (lit "articles", JArr articles)]) |}.

(** ** More observations *)

Import BotMain.

(** [bot_data] is bound to a [set] object. *)
Definition bound_to_set (w : world) : Prop :=
  exists l s, subscribers_ref w = Some l /\ heap w !! l = Some (OSet s).

(** A restart would load the set that is in memory. *)
Definition persisted (rt : runtime) (w : world) : Prop :=
  fst (load_subscribers rt (file w)) = Return (current_subscribers w).

(** The chats that were sent the confirmation, in order. *)
Definition replies (tr : list event) : list Z :=
  omap (fun ev => match ev with EvReply c => Some c | _ => None end) tr.

(** [s] has no white space at either end. *)
Definition trimmed (s : str) : Prop := strip s = s.


(** The confirmation the handler sends, when there is a message to reply to. *)
Definition reply_events (u : update) (y : Z) : list event :=
  if effective_message u then [EvReply y] else [].

(** The world with the inbox replaced (the event loop has taken an update). *)
Definition with_inbox (rest : list update) (w : world) : world :=
  {| heap := heap w; subscribers_ref := subscribers_ref w; file := file w;
     trace := trace w; log := log w; inbox := rest |}.

(** Chat [c] is in the object at address [l] and in the set of [bot_data]. *)
Definition keeps (c : Z) (l : nat) (w : world) : Prop :=
  c ∈ to_set (deref (heap w) l) /\ c ∈ current_subscribers w.

(** [bot_data] is bound to the [set] object at address [l]. *)
Definition set_at (l : nat) (w : world) : Prop :=
  subscribers_ref w = Some l /\ exists s, heap w !! l = Some (OSet s).

(** The chats of the updates of an inbox. *)
Definition chats_of (us : list update) : gset Z :=
  list_to_set (omap effective_chat us).

(** The subscribers, and the chats still waiting, are all in [allowed]. *)
Definition within (l : nat) (allowed : gset Z) (w : world) : Prop :=
  set_at l w
  /\ current_subscribers w ⊆ allowed
  /\ chats_of (inbox w) ⊆ allowed.

(** What a returned news fact satisfies. *)
Definition well_formed_news (n : news) : Prop :=
  news_title n <> [] /\ news_description n <> [] /\ news_url n <> []
  /\ trimmed (news_title n) /\ trimmed (news_url n)
  /\ (length (news_description n) <= MAX_DESCRIPTION_LEN)%nat.

(** A 200 response whose body is the object [payload]. *)
Definition ok_response (payload : list (str * value)) : response :=
  {| status_code := 200; json_body := Some (JObj payload) |}.
(* ===================================================================== *)
(** * Facts about strings *)
(* ===================================================================== *)

Section PyStrFacts.
Import PyStr.

Lemma starts_with_app (p rest : str) : starts_with p (p ++ rest) = true.
Proof.
  induction p as [|a p IH]; simpl; [reflexivity|].
  rewrite N.eqb_refl. exact IH.
Qed.

Lemma starts_with_inv (p s : str) :
  starts_with p s = true -> exists rest, s = p ++ rest.
Proof.
  revert s. induction p as [|a p IH]; intros s H.
  - exists s. reflexivity.
  - destruct s as [|b s]; simpl in H; [discriminate|].
    apply andb_prop in H as [Hab Hps].
    apply N.eqb_eq in Hab. subst b.
    destruct (IH s Hps) as [rest ->]. exists rest. reflexivity.
Qed.

(** [needle in s] holds exactly when [needle] occurs in [s]. *)
Lemma contains_spec (needle s : str) :
  contains needle s = true <-> exists pre post, s = pre ++ needle ++ post.
Proof.
  split.
  - induction s as [|c s IH]; simpl; intros H.
    + apply orb_prop in H as [H|H]; [|discriminate].
      apply starts_with_inv in H as [rest ->]. exists [], rest. reflexivity.
    + apply orb_prop in H as [H|H].
      * apply starts_with_inv in H as [rest ->]. exists [], rest. reflexivity.
      * destruct (IH H) as (pre & post & ->). exists (c :: pre), post. reflexivity.
  - intros (pre & post & ->). induction pre as [|c pre IH].
    + simpl. destruct (needle ++ post) eqn:E.
      * simpl. rewrite <- E, starts_with_app. reflexivity.
      * simpl. rewrite <- E, starts_with_app. reflexivity.
    + change ((c :: pre) ++ needle ++ post) with (c :: (pre ++ needle ++ post)).
      simpl. rewrite IH. apply orb_true_r.
Qed.

Lemma lstrip_length (s : str) : (length (lstrip s) <= length s)%nat.
Proof.
  induction s as [|c s IH]; simpl; [lia|].
  destruct (isspace c); simpl; lia.
Qed.

Lemma rstrip_length (s : str) : (length (rstrip s) <= length s)%nat.
Proof.
  unfold rstrip. rewrite length_rev.
  etransitivity; [apply lstrip_length|]. rewrite length_rev. lia.
Qed.

Lemma uint_chars_digit_head (d : Decimal.uint) (rest : str) :
  d <> Nil ->
  exists c cs, uint_chars d ++ rest = c :: cs /\ is_digit c = true.
Proof.
  intros Hd. destruct d; [congruence|..]; simpl; eauto.
Qed.

(** Reading back the digits that were printed. *)
Lemma lex_digits_uint_chars (d : Decimal.uint) (rest : str) :
  not_digit_head rest ->
  lex_digits (uint_chars d ++ rest) = (d, rest).
Proof.
  intros Hrest. induction d; simpl; try (rewrite IHd; reflexivity).
  destruct rest as [|c r]; simpl in *; [reflexivity|].
  rewrite Hrest. reflexivity.
Qed.

Lemma nzhead_no_leading_zero (d d' : Decimal.uint) : nzhead d <> D0 d'.
Proof. induction d; simpl; congruence. Qed.

(** The decimal form of a positive number has no leading zero. *)
Lemma to_uint_no_leading_zero (p : positive) (d : Decimal.uint) :
  Pos.to_uint p <> D0 d.
Proof.
  intros E.
  assert (Hn : unorm (Pos.to_uint p) = Pos.to_uint p).
  { rewrite <- (DecimalPos.Unsigned.to_of (Pos.to_uint p)).
    rewrite DecimalPos.Unsigned.of_to. reflexivity. }
  rewrite E, unorm_D0 in Hn. unfold unorm in Hn.
  destruct (nzhead d) eqn:Hz;
    try (apply (nzhead_no_leading_zero d d); congruence).
  injection Hn as <-.
  apply (DecimalPos.Unsigned.to_uint_nonzero p). exact E.
Qed.

Lemma join_length_ge (sep : str) (parts : list str) :
  (1 <= length sep)%nat ->
  (length parts <= S (length (join sep parts)))%nat.
Proof.
  intros Hsep. induction parts as [|p [|q parts] IH]; simpl in *; [lia..|].
  rewrite !length_app. lia.
Qed.

End PyStrFacts.

(* ===================================================================== *)
(** * Facts about the [json] module *)
(* ===================================================================== *)

Section JsonFacts.
Import PyStr Json.

Lemma match_frac_exp_none (rest : str) :
  int_follow rest -> match_frac rest = None /\ match_exp rest = None.
Proof.
  destruct rest as [|c r]; simpl; [tauto|].
  intros [-> | ->]; split; reflexivity.
Qed.

Lemma int_follow_not_digit (rest : str) : int_follow rest -> not_digit_head rest.
Proof.
  destruct rest as [|c r]; simpl; [trivial|]. intros [-> | ->]; reflexivity.
Qed.

Lemma match_number_uint (d : Decimal.uint) (rest : str) :
  d <> Nil -> (forall d', d <> D0 d') -> int_follow rest ->
  match_number (uint_chars d ++ rest) = Some (JInt (Z.of_int (Decimal.Pos d)), rest)
  /\ match_number (45%N :: uint_chars d ++ rest)
     = Some (JInt (Z.of_int (Decimal.Neg d)), rest).
Proof.
  intros Hn Hz Hrest.
  destruct (match_frac_exp_none rest Hrest) as [Hf He].
  pose proof (lex_digits_uint_chars d rest (int_follow_not_digit rest Hrest)) as Hl.
  assert (Hi : match_int_part (uint_chars d ++ rest) = Some (d, rest)).
  { destruct d; try congruence; try (exfalso; eapply Hz; reflexivity);
      unfold match_int_part; cbn [uint_chars app];
      cbn [uint_chars app] in Hl; rewrite Hl; reflexivity. }
  split.
  - unfold match_number.
    replace (match_sign (uint_chars d ++ rest)) with (false, uint_chars d ++ rest)
      by (destruct d; try congruence; reflexivity).
    rewrite Hi, Hf, He. reflexivity.
  - unfold match_number. cbn [match_sign]. rewrite Hi, Hf, He. reflexivity.
Qed.

Lemma match_number_int (z : Z) (rest : str) :
  int_follow rest ->
  match_number (int_str z ++ rest) = Some (JInt z, rest).
Proof.
  intros Hrest. unfold int_str.
  pose proof (DecimalZ.of_to z) as Hz.
  destruct z as [|p|p]; cbn [Z.to_int] in *.
  - destruct (match_frac_exp_none rest Hrest) as [Hf He].
    unfold match_number. simpl. rewrite Hf, He. reflexivity.
  - destruct (match_number_uint (Pos.to_uint p) rest) as [H _]; auto.
    + apply DecimalPos.Unsigned.to_uint_nonnil.
    + apply to_uint_no_leading_zero.
    + change (match_number (uint_chars (Pos.to_uint p) ++ rest)
              = Some (JInt (Z.pos p), rest)).
      rewrite H, Hz. reflexivity.
  - destruct (match_number_uint (Pos.to_uint p) rest) as [_ H]; auto.
    + apply DecimalPos.Unsigned.to_uint_nonnil.
    + apply to_uint_no_leading_zero.
    + change (match_number (45%N :: uint_chars (Pos.to_uint p) ++ rest)
              = Some (JInt (Z.neg p), rest)).
      rewrite H, Hz. reflexivity.
Qed.


Lemma is_digit_cases (c : char) :
  is_digit c = true ->
  c = 48%N \/ c = 49%N \/ c = 50%N \/ c = 51%N \/ c = 52%N \/ c = 53%N
  \/ c = 54%N \/ c = 55%N \/ c = 56%N \/ c = 57%N.
Proof.
  unfold is_digit. intros H. apply andb_prop in H as [H1 H2].
  apply N.leb_le in H1, H2. lia.
Qed.

(** On a digit, or a minus sign followed by a digit, [scan_once] is the
    number matcher. *)
Lemma scan_once_digit (fuel : nat) (c : char) (cs : str) :
  is_digit c = true ->
  scan_once (S fuel) (c :: cs) = match_number (c :: cs)
  /\ scan_once (S fuel) (45%N :: c :: cs) = match_number (45%N :: c :: cs).
Proof.
  intros H. apply is_digit_cases in H.
  repeat (destruct H as [-> | H]; [split; reflexivity|]).
  subst c. split; reflexivity.
Qed.

(** An integer is scanned back, whatever fuel is left. *)
Lemma scan_once_int (fuel : nat) (z : Z) (rest : str) :
  (1 <= fuel)%nat -> int_follow rest ->
  scan_once fuel (int_str z ++ rest) = Some (JInt z, rest).
Proof.
  intros Hfuel Hrest. destruct fuel as [|fuel]; [lia|]. clear Hfuel. rewrite <- (match_number_int z rest Hrest).
  unfold int_str.
  assert (Hd : forall d, Z.to_int z = Decimal.Pos d \/ Z.to_int z = Decimal.Neg d ->
                         d <> Nil).
  { intros d Hd. destruct z as [|p|p]; simpl in Hd;
      destruct Hd as [Hd|Hd]; try discriminate; injection Hd as <-;
      try discriminate; apply DecimalPos.Unsigned.to_uint_nonnil. }
  destruct (Z.to_int z) as [d|d].
  - destruct (uint_chars_digit_head d rest) as (c & cs & -> & Hc); [eauto|].
    apply (scan_once_digit fuel c cs Hc).
  - destruct (uint_chars_digit_head d rest) as (c & cs & E & Hc); [eauto|].
    cbn [app]. rewrite E. apply (scan_once_digit fuel c cs Hc).
Qed.

Lemma int_str_head (z : Z) (rest : str) :
  exists c cs, int_str z ++ rest = c :: cs /\ (is_digit c = true \/ c = 45%N).
Proof.
  unfold int_str. destruct (Z.to_int z) as [d|d] eqn:E.
  - destruct (uint_chars_digit_head d rest) as (c & cs & -> & Hc); [|eauto].
    destruct z; simpl in E; try discriminate; injection E as <-;
      try discriminate; apply DecimalPos.Unsigned.to_uint_nonnil.
  - simpl. eauto.
Qed.

Lemma skip_ws_int (z : Z) (rest : str) :
  skip_ws (int_str z ++ rest) = int_str z ++ rest.
Proof.
  destruct (int_str_head z rest) as (c & cs & -> & Hc).
  simpl. destruct Hc as [Hc| ->]; [|reflexivity].
  apply is_digit_cases in Hc.
  repeat (destruct Hc as [-> | Hc]; [reflexivity|]). subst; reflexivity.
Qed.

Lemma scan_items_ints (xs : list Z) : forall (x : Z) (fuel : nat),
  (length xs + 2 <= fuel)%nat ->
  scan_items fuel (join separator (map int_str (x :: xs)) ++ [10; 93]%N)
  = Some (map JInt (x :: xs), []).
Proof.
  induction xs as [|y xs IH]; intros x fuel Hfuel.
  - destruct fuel as [|fuel]; simpl in Hfuel; try lia.
    cbn [map join]. cbn [scan_items].
    rewrite scan_once_int by (simpl; auto; lia). reflexivity.
  - destruct fuel as [|fuel]; simpl in Hfuel; try lia.
    change (join separator (map int_str (x :: y :: xs)) ++ [10; 93]%N)
      with ((int_str x ++ separator ++ join separator (map int_str (y :: xs))) ++ [10; 93]%N).
    rewrite <- !app_assoc. cbn [scan_items].
    rewrite scan_once_int by (simpl; auto; lia).
    change (skip_ws (separator ++ join separator (map int_str (y :: xs)) ++ [10; 93]%N))
      with (44%N :: 10%N :: 32%N :: 32%N :: join separator (map int_str (y :: xs)) ++ [10; 93]%N).
    cbv iota beta.
    replace (skip_ws (10%N :: 32%N :: 32%N :: join separator (map int_str (y :: xs)) ++ [10; 93]%N))
      with (join separator (map int_str (y :: xs)) ++ [10; 93]%N).
    + rewrite IH by (simpl; lia). reflexivity.
    + destruct xs as [|y' xs'].
      * cbn [map join]. symmetry. apply (skip_ws_int y).
      * change (join separator (map int_str (y :: y' :: xs')) ++ [10; 93]%N)
          with ((int_str y ++ separator ++ join separator (map int_str (y' :: xs'))) ++ [10; 93]%N).
        rewrite <- !app_assoc. symmetry. apply (skip_ws_int y).
Qed.

Lemma scan_once_array (fuel : nat) (r : str) :
  (forall r', skip_ws r <> 93%N :: r') ->
  scan_once (S fuel) (91%N :: r)
  = match scan_items fuel (skip_ws r) with
    | Some (vs, r') => Some (JArr vs, r')
    | None => None
    end.
Proof.
  intros H. cbn [scan_once].
  destruct (skip_ws r) as [|c cs]; [reflexivity|].
  destruct c as [|p]; [reflexivity|].
  do 7 (destruct p as [p|p|]; try reflexivity).
  exfalso. eapply H. reflexivity.
Qed.

Theorem loads_dumps_ints (xs : list Z) :
  loads (dumps_ints xs) = Some (JArr (map JInt xs)).
Proof.
  destruct xs as [|x xs]; [reflexivity|].
  unfold dumps_ints.
  change (lit "[" ++ newline_indent ++ join separator (map int_str (x :: xs))
            ++ [10%N] ++ lit "]")
    with (91%N :: 10%N :: 32%N :: 32%N :: join separator (map int_str (x :: xs)) ++ [10; 93]%N).
  set (body := join separator (map int_str (x :: xs)) ++ [10; 93]%N).
  assert (Hbody : skip_ws body = body).
  { subst body. destruct xs as [|y xs].
    - apply (skip_ws_int x).
    - change (join separator (map int_str (x :: y :: xs)) ++ [10; 93]%N)
        with ((int_str x ++ separator ++ join separator (map int_str (y :: xs))) ++ [10; 93]%N).
      rewrite <- !app_assoc. apply (skip_ws_int x). }
  assert (Hhead : exists c cs, body = c :: cs /\ c <> 93%N).
  { subst body. destruct xs as [|y xs].
    - destruct (int_str_head x [10;93]%N) as (c & cs & E & Hc).
      exists c, cs. split; [exact E|]. destruct Hc as [Hc| ->]; [|discriminate].
      intros ->. discriminate.
    - change (join separator (map int_str (x :: y :: xs)) ++ [10; 93]%N)
        with ((int_str x ++ separator ++ join separator (map int_str (y :: xs))) ++ [10; 93]%N).
      rewrite <- !app_assoc.
      destruct (int_str_head x (separator ++ join separator (map int_str (y :: xs)) ++ [10; 93]%N))
        as (c & cs & E & Hc).
      exists c, cs. split; [exact E|]. destruct Hc as [Hc| ->]; [|discriminate].
      intros ->. discriminate. }
  assert (Hlen : (length xs <= length body)%nat).
  { pose proof (join_length_ge separator (map int_str (x :: xs))) as Hj.
    subst body. rewrite length_app. rewrite length_map in Hj.
    simpl in Hj. simpl. lia. }
  unfold loads.
  change (skip_ws (91%N :: 10%N :: 32%N :: 32%N :: body))
    with (91%N :: 10%N :: 32%N :: 32%N :: body).
  match goal with
  | |- context [scan_once ?f _] => remember f as fuel eqn:Hfuel
  end.
  destruct fuel as [|fuel]; [lia|].
  rewrite scan_once_array.
  - change (skip_ws (10%N :: 32%N :: 32%N :: body)) with (skip_ws body).
    rewrite Hbody. unfold body. rewrite scan_items_ints; [reflexivity|].
    cbn [length] in Hfuel. lia.
  - change (skip_ws (10%N :: 32%N :: 32%N :: body)) with (skip_ws body).
    rewrite Hbody. destruct Hhead as (c & cs & E & Hc). rewrite E.
    intros r' Hr. congruence.
Qed.

End JsonFacts.

(* ===================================================================== *)
(** * Persistence: [load_subscribers] and [save_subscribers] *)
(* ===================================================================== *)

Section PersistenceFacts.
Variable rt : runtime.

Lemma sorted_elem_of (s : gset Z) (x : Z) : x ∈ sorted s <-> x ∈ s.
Proof.
  unfold sorted. rewrite merge_sort_Permutation. apply elem_of_elements.
Qed.

Lemma sorted_to_set (s : gset Z) : list_to_set (sorted s) = s.
Proof.
  apply set_eq. intros x. rewrite elem_of_list_to_set. apply sorted_elem_of.
Qed.

Lemma sorted_NoDup (s : gset Z) : NoDup (sorted s).
Proof.
  unfold sorted. rewrite merge_sort_Permutation. apply NoDup_elements.
Qed.

Lemma sorted_increasing (s : gset Z) : StronglySorted Z.lt (sorted s).
Proof.
  pose proof (sorted_NoDup s) as Hnd.
  assert (Hle : StronglySorted Z.le (sorted s)).
  { unfold sorted. apply (StronglySorted_merge_sort Z.le). }
  induction Hle as [|x l Hl IH Hx]; [constructor|].
  apply NoDup_cons in Hnd as [Hnotin Hnd].
  constructor; [apply IH, Hnd|].
  rewrite Forall_forall in *. intros y Hy.
  specialize (Hx y Hy). assert (x <> y) by (intros ->; contradiction). lia.
Qed.

Lemma int_set_ints (xs : list Z) :
  int_set rt (map JInt xs) = Return (list_to_set xs).
Proof.
  induction xs as [|x xs IH]; [reflexivity|].
  cbn [map int_set py_int]. rewrite IH. reflexivity.
Qed.

Lemma load_subscribers_text (s : gset Z) :
  load_subscribers rt (FText (subscribers_text s)) = (Return s, []).
Proof.
  unfold load_subscribers, load_try, subscribers_text. cbn [read_text].
  cbn [mbind pyresult_bind].
  rewrite loads_dumps_ints, int_set_ints, sorted_to_set. reflexivity.
Qed.

(** C8: persisting a subscriber set and loading it again gives the set
    back (and logs nothing); two sets with the same members, whatever the
    order of insertion, are written as the same text; the text is the JSON
    list of the members in strictly increasing order. *)
Theorem save_load_round_trip :
  (forall (s : gset Z) (w : world),
     load_subscribers rt (file (save_subscribers s w)) = (Return s, []))
  /\ (forall (ids1 ids2 : list Z) (w1 w2 : world),
        (forall x, x ∈ ids1 <-> x ∈ ids2) ->
        file (save_subscribers (list_to_set ids1) w1)
        = file (save_subscribers (list_to_set ids2) w2))
  /\ (forall (s : gset Z) (w : world),
        exists xs, file (save_subscribers s w) = FText (dumps_ints xs)
                   /\ StronglySorted Z.lt xs
                   /\ forall x, x ∈ xs <-> x ∈ s).
Proof.
  split; [|split].
  - intros s w. apply load_subscribers_text.
  - intros ids1 ids2 w1 w2 H.
    replace (list_to_set ids2 : gset Z) with (list_to_set ids1 : gset Z); [reflexivity|].
    apply set_eq. intros x. rewrite !elem_of_list_to_set. apply H.
  - intros s w. exists (sorted s). split; [reflexivity|]. split.
    + apply sorted_increasing.
    + apply sorted_elem_of.
Qed.


End PersistenceFacts.

(** An item that [int()] rejects with [TypeError] is not caught by the
    [except] clause: the exception leaves [load_subscribers]. *)
Lemma load_subscribers_null_item (rt : runtime) :
  load_subscribers rt (FText (lit "[null]")) = (Raise TypeError, []).
Proof. reflexivity. Qed.

(** When [exists()] itself fails, line 38 is outside the [try]: the
    [OSError] leaves [load_subscribers], and nothing is logged. *)
Lemma load_subscribers_inaccessible (rt : runtime) :
  load_subscribers rt FInaccessible = (Raise OSError, []).
Proof. reflexivity. Qed.

(** A thousand opening brackets are beyond [within_limits]; a list of two
    ids is within. *)
Lemma within_limits_examples :
  ~ within_limits (repeat 91%N 1000)
  /\ ~ within_limits (repeat 49%N 5000)
  /\ within_limits (lit "[2, 1]").
Proof.
  split; [|split].
  - intros [H _]. vm_compute in H. lia.
  - intros [_ H]. vm_compute in H. lia.
  - split; vm_compute; lia.
Qed.



Lemma save_load_round_trip_witness :
  file (save_subscribers (list_to_set [3; 1; 2]) (world_with ∅ []))
  = file (save_subscribers (list_to_set [2; 3; 1; 1]) (world_with ∅ [])).
Proof.
  destruct (save_load_round_trip rejecting_runtime) as (_ & H & _).
  apply H. intros x. rewrite !elem_of_cons, !elem_of_nil. tauto.
Defined.

(* ===================================================================== *)
(** * Rendering: [build_message] and [build_daily_message] *)
(* ===================================================================== *)

Lemma join_app (sep : str) (l1 l2 : list str) :
  l1 <> [] -> l2 <> [] ->
  join sep (l1 ++ l2) = join sep l1 ++ sep ++ join sep l2.
Proof.
  intros H1 H2. induction l1 as [|p [|q l1] IH]; [congruence| |].
  - destruct l2; [congruence|reflexivity].
  - change (join sep ((p :: q :: l1) ++ l2))
      with (p ++ sep ++ join sep ((q :: l1) ++ l2)).
    rewrite IH by discriminate.
    change (join sep (p :: q :: l1)) with (p ++ sep ++ join sep (q :: l1)).
    rewrite <- !app_assoc. reflexivity.
Qed.


Lemma join_layout (sep g loc hdr : str) (wl nls : list str) :
  wl <> [] -> nls <> [] ->
  join sep ((([g; []; loc] ++ wl) ++ [[]; hdr]) ++ nls)
  = g ++ sep ++ sep ++ loc ++ sep ++ join sep wl ++ sep ++ sep
      ++ hdr ++ sep ++ join sep nls.
Proof.
  intros Hw Hn.
  rewrite !join_app; try assumption; try discriminate.
  cbn [join app]. rewrite <- !app_assoc. reflexivity.
Qed.

(** C1: for each of the six combinations of a weather outcome (failure,
    success) and a news outcome (failure, success without a match, success
    with an article), [build_daily_message] returns a non-empty message:
    the greeting, the location, then the fixed weather placeholder or the
    four weather lines, a blank line, the news header, then the fixed news
    placeholder or the title, the description and the URL in that order;
    each failure is logged as a warning and none is raised. *)
Theorem build_daily_message_total (wr : pyresult weather) (nr : pyresult (option news)) :
  let msg := fst (build_daily_message wr nr) in
  msg <> []
  /\ msg = lit "Доброе утро ☀️" ++ nl ++ nl ++ lit "📍 Москва" ++ nl
           ++ expected_weather_part wr ++ nl ++ nl
           ++ lit "📰 Хорошая новость дня:" ++ nl
           ++ expected_news_part nr
  /\ snd (build_daily_message wr nr) = expected_warnings wr nr.
Proof.
  split; [|split].
  - destruct wr as [e1|w], nr as [e2|[n|]]; discriminate.
  - destruct wr as [e1|w], nr as [e2|[n|]];
      (etransitivity; [apply join_layout; discriminate|]);
      unfold expected_weather_part, expected_news_part, weather_lines, news_lines;
      cbn [join]; rewrite <- ?app_assoc; reflexivity.
  - destruct wr as [e1|w], nr as [e2|[n|]]; reflexivity.
Qed.

(* ===================================================================== *)
(** * The [/start] handler without a chat *)
(* ===================================================================== *)

(** C10: on an update without an effective chat, [start_handler] leaves the
    world as it is: the subscriber set, the file, the trace (no write, no
    reply) and the log are unchanged. *)
Theorem start_handler_no_chat (reply : bool) (w : world) :
  start_handler {| effective_chat := None; effective_message := reply |} w = w.
Proof. reflexivity. Qed.

(* ===================================================================== *)
(** * News: [fetch_positive_news] *)
(* ===================================================================== *)

Section NewsFacts.
Variable rt : runtime.

Lemma nonempty_true (s : str) : s <> [] -> nonempty s = true.
Proof. intros H. unfold nonempty, str_eqb. rewrite bool_decide_eq_false_2; auto. Qed.

Lemma field_text_text (key : str) (members : list (str * value)) (t : str) :
  text_field key members = Some t -> field_text rt key members = Return t.
Proof.
  unfold text_field, field_text. intros H.
  destruct (get key members) as [v|]; [|injection H as <-; reflexivity].
  destruct v; try discriminate; injection H as <-;
    cbn [default from_option id truthy]; [reflexivity|].
  unfold str_eqb. destruct (bool_decide (s = [])) eqn:E; cbn [negb]; [|reflexivity].
  apply bool_decide_eq_true_1 in E. subst s. reflexivity.
Qed.

Lemma select_article_texts (a : value) (rest : list value) (t d u : str) :
  article_texts a = Some (t, d, u) ->
  select_article rt (a :: rest)
  = if nonempty t && nonempty d && nonempty u
    then Return (Some {| news_title := t; news_description := clip d; news_url := u |})
    else select_article rt rest.
Proof.
  intros H. destruct a; try discriminate. cbn [article_texts] in H.
  destruct (text_field (lit "title") members) as [t'|] eqn:Ht; [|discriminate].
  destruct (text_field (lit "description") members) as [d'|] eqn:Hd; [|discriminate].
  destruct (text_field (lit "url") members) as [u'|] eqn:Hu; [|discriminate].
  injection H as -> -> ->.
  cbn [select_article].
  rewrite (field_text_text _ _ _ Ht), (field_text_text _ _ _ Hd), (field_text_text _ _ _ Hu).
  reflexivity.
Qed.

Lemma select_article_skip (a : value) (rest : list value) :
  unusable a -> select_article rt (a :: rest) = select_article rt rest.
Proof.
  intros (t & d & u & H & He). rewrite (select_article_texts _ _ _ _ _ H).
  destruct He as [-> | [-> | ->]]; cbn [nonempty str_eqb];
    rewrite ?andb_false_r; reflexivity.
Qed.

Lemma select_article_first (pre : list value) (a : value) (post : list value)
    (t d u : str) :
  Forall unusable pre ->
  article_texts a = Some (t, d, u) -> t <> [] -> d <> [] -> u <> [] ->
  select_article rt (pre ++ a :: post)
  = Return (Some {| news_title := t; news_description := clip d; news_url := u |}).
Proof.
  intros Hpre Ha Ht Hd Hu. induction Hpre as [|b pre Hb _ IH].
  - cbn [app]. rewrite (select_article_texts _ _ _ _ _ Ha).
    rewrite !nonempty_true by assumption. reflexivity.
  - cbn [app]. rewrite select_article_skip by assumption. exact IH.
Qed.

Lemma select_article_none (articles : list value) :
  Forall unusable articles -> select_article rt articles = Return None.
Proof.
  induction 1 as [|b l Hb _ IH]; [reflexivity|].
  rewrite select_article_skip by assumption. exact IH.
Qed.

Lemma fetch_positive_news_ok (r : response) (articles : list value) :
  upstream_ok r articles ->
  fetch_positive_news rt (Return r) = select_article rt articles.
Proof.
  intros (Hs & payload & Hb & He & Ha).
  unfold fetch_positive_news. cbn [mbind pyresult_bind].
  assert (H429 : (status_code r =? 429) = false).
  { unfold is_success in Hs. apply andb_prop in Hs as [_ Hs].
    apply Z.leb_le in Hs. apply Z.eqb_neq. lia. }
  rewrite H429, Hs, Hb, He, Ha. reflexivity.
Qed.

(** C5: on a list of articles whose fields are texts, [fetch_positive_news]
    returns the fact built from the first article, in upstream order, whose
    title, description and URL are all non-empty once trimmed; when no
    article is, it returns [None] as a result, not as a failure. *)
Theorem fetch_positive_news_first_usable (r : response) (articles : list value) :
  upstream_ok r articles ->
  (forall pre a post t d u,
      articles = pre ++ a :: post -> Forall unusable pre ->
      article_texts a = Some (t, d, u) -> t <> [] -> d <> [] -> u <> [] ->
      fetch_positive_news rt (Return r)
      = Return (Some {| news_title := t; news_description := clip d; news_url := u |}))
  /\ (Forall unusable articles -> fetch_positive_news rt (Return r) = Return None).
Proof.
  intros Hok. rewrite (fetch_positive_news_ok _ _ Hok). split.
  - intros pre a post t d u -> Hpre Ha Ht Hd Hu.
    apply select_article_first; assumption.
  - apply select_article_none.
Qed.

Lemma clip_long (d : str) :
  (MAX_DESCRIPTION_LEN < length d)%nat ->
  clip d = rstrip (take 257 d) ++ lit "..."
  /\ (length (clip d) <= MAX_DESCRIPTION_LEN)%nat.
Proof.
  intros H. unfold clip. apply Nat.ltb_lt in H. rewrite H.
  split; [reflexivity|].
  rewrite length_app.
  pose proof (rstrip_length (take (MAX_DESCRIPTION_LEN - 3) d)) as Hr.
  rewrite length_take in Hr. change (length (lit "...")) with 3%nat.
  unfold MAX_DESCRIPTION_LEN in *. lia.
Qed.

Lemma clip_short (d : str) :
  (length d <= MAX_DESCRIPTION_LEN)%nat -> clip d = d.
Proof.
  intros H. unfold clip.
  destruct (Nat.ltb_spec MAX_DESCRIPTION_LEN (length d)); [lia|reflexivity].
Qed.

(** C4: the description stored for the selected article, [d] being its
    trimmed description: longer than 260 characters, it is cut to the first
    257, stripped on the right and ended with three dots, 260 characters at
    most; 260 characters or fewer, it is [d] itself. *)
Theorem fetch_positive_news_description (r : response) (articles pre post : list value)
    (a : value) (t d u : str) :
  upstream_ok r articles ->
  articles = pre ++ a :: post -> Forall unusable pre ->
  article_texts a = Some (t, d, u) -> t <> [] -> d <> [] -> u <> [] ->
  exists n, fetch_positive_news rt (Return r) = Return (Some n)
    /\ ((MAX_DESCRIPTION_LEN < length d)%nat ->
          news_description n = rstrip (take 257 d) ++ lit "..."
          /\ (length (news_description n) <= MAX_DESCRIPTION_LEN)%nat)
    /\ ((length d <= MAX_DESCRIPTION_LEN)%nat -> news_description n = d).
Proof.
  intros Hok -> Hpre Ha Ht Hd Hu.
  eexists. split.
  - rewrite (fetch_positive_news_ok _ _ Hok).
    apply select_article_first; eassumption.
  - cbn [news_description]. split; [apply clip_long|apply clip_short].
Qed.

End NewsFacts.

Lemma fetch_positive_news_first_usable_witness :
  fetch_positive_news rejecting_runtime
    (Return (news_response
       [article (lit "No link") (lit "Nothing to open") (lit "  ");
        article (lit " Good news ") (lit "It rained.") (lit "https://example.org/a");
        article (lit "Later") (lit "Also fine") (lit "https://example.org/b")]))
  = Return (Some {| news_title := lit "Good news";
                    news_description := lit "It rained.";
                    news_url := lit "https://example.org/a" |})
  /\ fetch_positive_news rejecting_runtime
       (Return (news_response
          [article (lit "No link") (lit "Nothing to open") (lit "  ")]))
     = Return None.
Proof.
  split.
  - set (arts := [article (lit "No link") (lit "Nothing to open") (lit "  ");
        article (lit " Good news ") (lit "It rained.") (lit "https://example.org/a");
        article (lit "Later") (lit "Also fine") (lit "https://example.org/b")]).
    assert (Hok : upstream_ok (news_response arts) arts).
    { split; [reflexivity|]. eexists. repeat split; reflexivity. }
    destruct (fetch_positive_news_first_usable rejecting_runtime _ _ Hok) as [H _].
    apply (H [article (lit "No link") (lit "Nothing to open") (lit "  ")]
             (article (lit " Good news ") (lit "It rained.") (lit "https://example.org/a"))
             [article (lit "Later") (lit "Also fine") (lit "https://example.org/b")]
             (lit "Good news") (lit "It rained.") (lit "https://example.org/a")).
    + reflexivity.
    + constructor; [|constructor].
      exists (lit "No link"), (lit "Nothing to open"), [].
      split; [reflexivity|]. right. right. reflexivity.
    + reflexivity.
    + discriminate.
    + discriminate.
    + discriminate.
  - set (arts := [article (lit "No link") (lit "Nothing to open") (lit "  ")]).
    assert (Hok : upstream_ok (news_response arts) arts).
    { split; [reflexivity|]. eexists. repeat split; reflexivity. }
    destruct (fetch_positive_news_first_usable rejecting_runtime _ _ Hok) as [_ H].
    apply H. constructor; [|constructor].
    exists (lit "No link"), (lit "Nothing to open"), [].
    split; [reflexivity|]. right. right. reflexivity.
Defined.

Lemma fetch_positive_news_description_witness :
  (exists n,
     fetch_positive_news rejecting_runtime
       (Return (news_response
          [article (lit "Long") (repeat 97%N 300 ++ lit "  ") (lit "https://example.org/l")]))
     = Return (Some n)
     /\ news_description n = repeat 97%N 257 ++ lit "...")
  /\ (exists n,
     fetch_positive_news rejecting_runtime
       (Return (news_response
          [article (lit "Exact") (repeat 97%N 260) (lit "https://example.org/e")]))
     = Return (Some n)
     /\ news_description n = repeat 97%N 260).
Proof.
  split.
  - set (a := article (lit "Long") (repeat 97%N 300 ++ lit "  ") (lit "https://example.org/l")).
    assert (Hok : upstream_ok (news_response [a]) [a]).
    { split; [reflexivity|]. eexists. repeat split; reflexivity. }
    destruct (fetch_positive_news_description rejecting_runtime (news_response [a]) [a]
                [] [] a (lit "Long") (repeat 97%N 300) (lit "https://example.org/l")
                Hok eq_refl ltac:(constructor))
      as (n & Hn & Hlong & _);
      [vm_compute; reflexivity|discriminate|discriminate|discriminate|].
    exists n. split; [exact Hn|].
    destruct Hlong as [Hd _]; [vm_compute; lia|].
    rewrite Hd. vm_compute. reflexivity.
  - set (a := article (lit "Exact") (repeat 97%N 260) (lit "https://example.org/e")).
    assert (Hok : upstream_ok (news_response [a]) [a]).
    { split; [reflexivity|]. eexists. repeat split; reflexivity. }
    destruct (fetch_positive_news_description rejecting_runtime (news_response [a]) [a]
                [] [] a (lit "Exact") (repeat 97%N 260) (lit "https://example.org/e")
                Hok eq_refl ltac:(constructor))
      as (n & Hn & _ & Hshort);
      [vm_compute; reflexivity|discriminate|discriminate|discriminate|].
    exists n. split; [exact Hn|].
    apply Hshort. vm_compute. lia.
Defined.

(* ===================================================================== *)
(** * The daily digest: [send_daily_digest] *)
(* ===================================================================== *)

Section DigestFacts.
Variable rt : runtime.
Variable e : env.
Variable sched : nat -> nat.

Lemma is_stale_error_spec (t : str) :
  is_stale_error t = true
  <-> occurs (lit "forbidden") (lower t) \/ occurs (lit "chat not found") (lower t).
Proof.
  unfold is_stale_error, occurs. rewrite orb_true_iff, !contains_spec. reflexivity.
Qed.

Lemma run_handlers_quiet (n : nat) (w : world) :
  inbox w = [] -> run_handlers n w = w.
Proof. intros H. destruct n; simpl; [reflexivity|]. rewrite H. reflexivity. Qed.

(** The stale set the loop returns does not depend on the world. *)
Lemma deliver_loop_stale (message : str) (chats : list Z) :
  forall (i : nat) (stale : gset Z) (w : world),
  fst (deliver_loop e sched message chats i stale w)
  = stale ∪ list_to_set (filter (fun c => permanent (send_message e c message) = true) chats).
Proof.
  induction chats as [|c chats IH]; intros i stale w.
  - cbn. set_solver.
  - cbn [deliver_loop]. rewrite filter_cons.
    destruct (send_message e c message) as [|t]; rewrite IH;
      case_decide as Hp; cbn [permanent] in Hp; try discriminate; try reflexivity.
    + rewrite Hp. cbn [list_to_set]. set_solver.
    + apply not_true_is_false in Hp. rewrite Hp. reflexivity.
Qed.

Lemma deliver_loop_quiet (message : str) (chats : list Z) :
  forall (i : nat) (stale : gset Z) (w : world),
  inbox w = [] ->
  let w' := snd (deliver_loop e sched message chats i stale w) in
  heap w' = heap w /\ subscribers_ref w' = subscribers_ref w /\ file w' = file w
  /\ inbox w' = []
  /\ trace w' = trace w ++ map (fun c => EvSend c message) chats
  /\ log w' = log w ++ send_warnings e message chats.
Proof.
  induction chats as [|c chats IH]; intros i stale w Hq.
  - cbn. rewrite !app_nil_r. repeat split; auto.
  - cbn [deliver_loop]. rewrite run_handlers_quiet by exact Hq.
    unfold send_warnings. cbn [omap list_omap map].
    fold (send_warnings e message chats).
    destruct (send_message e c message) as [|t] eqn:E.
    + match goal with |- context [deliver_loop _ _ _ _ ?i ?s ?w] =>
        destruct (IH i s w Hq) as (H1 & H2 & H3 & H4 & H5 & H6) end.
      cbn zeta. rewrite H1, H2, H3, H4, H5, H6. cbn [emit heap subscribers_ref file trace log].
      rewrite <- app_assoc. repeat split; auto.
    + match goal with |- context [deliver_loop _ _ _ _ ?i ?s ?w] =>
        destruct (IH i s w Hq) as (H1 & H2 & H3 & H4 & H5 & H6) end.
      cbn zeta. rewrite H1, H2, H3, H4, H5, H6.
      cbn [emit logs heap subscribers_ref file trace log].
      rewrite <- !app_assoc. repeat split; auto.
Qed.

Lemma sends_app (a b : list event) : sends (a ++ b) = sends a ++ sends b.
Proof. apply omap_app. Qed.

Lemma writes_app (a b : list event) : writes (a ++ b) = writes a ++ writes b.
Proof. apply omap_app. Qed.

Lemma sends_map_send (message : str) (chats : list Z) :
  sends (map (fun c => EvSend c message) chats) = map (fun c => (c, message)) chats.
Proof. induction chats as [|c l IH]; [reflexivity|]. cbn. f_equal. exact IH. Qed.

Lemma writes_map_send (message : str) (chats : list Z) :
  writes (map (fun c => EvSend c message) chats) = [].
Proof. induction chats as [|c l IH]; [reflexivity|]. exact IH. Qed.

Lemma unreachable_elements (message : str) (subs : gset Z) :
  list_to_set (filter (fun c => permanent (send_message e c message) = true)
                 (elements subs))
  = unreachable e message subs.
Proof.
  apply set_eq. intros c. unfold unreachable.
  rewrite elem_of_list_to_set, list_elem_of_filter, elem_of_filter, elem_of_elements.
  reflexivity.
Qed.

(** One cycle with no command waiting. *)
Lemma send_daily_digest_quiet (w : world) :
  inbox w = [] ->
  let subs := current_subscribers w in
  let message := digest_message rt e in
  let gone := unreachable e message subs in
  let w' := send_daily_digest rt e sched w in
  inbox w' = []
  /\ sends (trace w') = sends (trace w) ++ map (fun c => (c, message)) (elements subs)
  /\ current_subscribers w' = subs ∖ gone
  /\ (gone = ∅ ->
        heap w' = heap w /\ subscribers_ref w' = subscribers_ref w
        /\ file w' = file w /\ writes (trace w') = writes (trace w))
  /\ (gone <> ∅ ->
        file w' = FText (subscribers_text (subs ∖ gone))
        /\ writes (trace w') = writes (trace w) ++ [subscribers_text (subs ∖ gone)]).
Proof.
  intros Hq. cbv zeta.
  set (message := digest_message rt e).
  remember (current_subscribers w) as subs eqn:Hsubs.
  remember (unreachable e message subs) as gone eqn:Hgone.
  destruct (decide (subs = ∅)) as [Hs|Hs].
  - assert (Hw : send_daily_digest rt e sched w = logs [InfoNoSubscribers] w).
    { unfold current_subscribers in Hsubs. unfold send_daily_digest.
      destruct (subscribers_ref w) as [l|]; [|reflexivity].
      rewrite <- Hsubs, Hs. rewrite bool_decide_eq_true_2 by reflexivity. reflexivity. }
    rewrite Hw.
    assert (Hg : gone = ∅) by (rewrite Hgone, Hs; unfold unreachable; set_solver).
    change (current_subscribers (logs [InfoNoSubscribers] w)) with (current_subscribers w).
    rewrite <- Hsubs, Hg, Hs, elements_empty, app_nil_r.
    cbn [logs inbox trace heap subscribers_ref file].
    repeat split; auto; try congruence; set_solver.
  - unfold send_daily_digest.
    unfold current_subscribers in Hsubs.
    destruct (subscribers_ref w) as [l|] eqn:Hl; [|congruence].
    rewrite <- Hsubs. rewrite bool_decide_eq_false_2 by exact Hs.
    rewrite run_handlers_quiet by exact Hq.
    destruct (build_daily_message (weather_task e) (fetch_positive_news rt (news_got e)))
      as [msg warnings] eqn:Hb.
    assert (Hm : msg = message).
    { subst message. unfold digest_message. rewrite Hb. reflexivity. }
    subst msg.
    set (w1 := logs warnings (emit EvFetchNews (emit EvFetchWeather w))).
    assert (Hq1 : inbox w1 = []) by exact Hq.
    change (deref (heap w1) l) with (deref (heap w) l). rewrite <- Hsubs.
    pose proof (deliver_loop_stale message (elements subs) 1 ∅ w1) as Hst.
    pose proof (deliver_loop_quiet message (elements subs) 1 ∅ w1 Hq1) as Hw.
    destruct (deliver_loop e sched message (elements subs) 1 ∅ w1) as [stale w4].
    cbn [fst snd] in Hst, Hw. cbv zeta in Hw.
    destruct Hw as (H1 & H2 & H3 & H4 & H5 & H6).
    rewrite unreachable_elements, union_empty_l_L, <- Hgone in Hst. subst stale.
    destruct (decide (gone = ∅)) as [Hg|Hg].
    + rewrite bool_decide_eq_true_2 by exact Hg.
      rewrite H5. cbn [w1 logs emit trace heap subscribers_ref file] in *.
      rewrite !sends_app, !writes_app, sends_map_send, writes_map_send.
      cbn [sends writes omap list_omap app]. rewrite !app_nil_r.
      repeat split; auto; try congruence.
      unfold current_subscribers. rewrite H1, H2, Hl, <- Hsubs, Hg. set_solver.
    + rewrite bool_decide_eq_false_2 by exact Hg.
      rewrite H1. change (deref (heap w1) l) with (deref (heap w) l). rewrite <- Hsubs.
      cbn [alloc bind_subscribers save_subscribers emit inbox trace file heap
           subscribers_ref].
      rewrite H5. cbn [w1 logs emit trace].
      rewrite !sends_app, !writes_app, sends_map_send, writes_map_send.
      cbn [sends writes omap list_omap app]. rewrite !app_nil_r.
      repeat split; auto; try congruence.
      unfold current_subscribers.
      cbn [save_subscribers bind_subscribers emit heap subscribers_ref].
      unfold deref. rewrite lookup_insert_eq. reflexivity.
Qed.

(** *** A command that arrives while the job runs *)

Lemma start_handler_on_set (u : update) (w : world) (l : nat) (s : gset Z) (y : Z) :
  subscribers_ref w = Some l -> heap w !! l = Some (OSet s) ->
  effective_chat u = Some y ->
  let w' := start_handler u w in
  subscribers_ref w' = Some l
  /\ heap w' !! l = Some (OSet ({[y]} ∪ s))
  /\ file w' = FText (subscribers_text ({[y]} ∪ s))
  /\ inbox w' = inbox w.
Proof.
  intros Hl Hs Hy. cbv zeta. unfold start_handler. rewrite Hy, Hl.
  unfold deref. rewrite Hs. cbn [default from_option id to_set].
  rewrite Hs. cbn [default from_option id to_set].
  destruct (effective_message u);
    cbn [emit save_subscribers bind_subscribers store heap subscribers_ref file inbox];
    repeat split; apply lookup_insert_eq.
Qed.

Lemma start_handler_inbox (u : update) (w : world) :
  inbox (start_handler u w) = inbox w.
Proof.
  unfold start_handler. destruct (effective_chat u) as [y|]; [|reflexivity].
  destruct (subscribers_ref w) as [l|].
  - destruct (deref (heap w) l); destruct (effective_message u); reflexivity.
  - cbn [alloc bind_subscribers heap]. unfold deref. rewrite lookup_insert_eq.
    cbn [default from_option id]. destruct (effective_message u); reflexivity.
Qed.

Lemma current_subscribers_at (w : world) (l : nat) (s : gset Z) :
  subscribers_ref w = Some l -> heap w !! l = Some (OSet s) ->
  current_subscribers w = s.
Proof.
  intros Hl Hs. unfold current_subscribers, deref. rewrite Hl, Hs. reflexivity.
Qed.

Lemma tracks_handler (l : nat) (x : Z) (u : update) (rest : list update) (w : world) :
  inbox w = u :: rest -> tracks l x w ->
  tracks l x (start_handler u
    {| heap := heap w; subscribers_ref := subscribers_ref w; file := file w;
       trace := trace w; log := log w; inbox := rest |}).
Proof.
  intros Hin (Hl & (s & Hs) & Hx).
  set (w0 := {| heap := heap w; subscribers_ref := subscribers_ref w; file := file w;
                trace := trace w; log := log w; inbox := rest |}).
  destruct (effective_chat u) as [y|] eqn:Hy.
  - destruct (start_handler_on_set u w0 l s y Hl Hs Hy) as (H1 & H2 & H3 & H4).
    split; [exact H1|]. split; [eauto|].
    assert (Hc : current_subscribers (start_handler u w0) = {[y]} ∪ s)
      by (apply (current_subscribers_at _ l); assumption).
    destruct Hx as [[Hx _]|(u' & Hu' & Hxu)].
    + left. split; [|rewrite Hc; exact H3].
      rewrite Hc. rewrite (current_subscribers_at w l s Hl Hs) in Hx. set_solver.
    + rewrite Hin in Hu'. apply elem_of_cons in Hu' as [->|Hu'].
      * left. split; [|rewrite Hc; exact H3].
        rewrite Hc. assert (y = x) by congruence. set_solver.
      * right. exists u'. rewrite H4. split; [exact Hu'|exact Hxu].
  - unfold start_handler. rewrite Hy.
    split; [exact Hl|]. split; [eauto|].
    destruct Hx as [Hx|(u' & Hu' & Hxu)]; [left; exact Hx|].
    right. rewrite Hin in Hu'. apply elem_of_cons in Hu' as [->|Hu']; [congruence|].
    exists u'. split; [exact Hu'|exact Hxu].
Qed.

Lemma tracks_run_handlers (l : nat) (x : Z) (n : nat) :
  forall w, tracks l x w -> tracks l x (run_handlers n w).
Proof.
  induction n as [|n IH]; intros w H; [exact H|].
  cbn [run_handlers]. destruct (inbox w) as [|u rest] eqn:Hin; [exact H|].
  apply IH. apply tracks_handler; assumption.
Qed.

Lemma tracks_emit (l : nat) (x : Z) (ev : event) (w : world) :
  tracks l x w -> tracks l x (emit ev w).
Proof. intros H. exact H. Qed.

Lemma tracks_logs (l : nat) (x : Z) (es : list log_entry) (w : world) :
  tracks l x w -> tracks l x (logs es w).
Proof. intros H. exact H. Qed.

Lemma tracks_deliver_loop (l : nat) (x : Z) (message : str) (chats : list Z) :
  forall (i : nat) (stale : gset Z) (w : world),
  tracks l x w -> tracks l x (snd (deliver_loop e sched message chats i stale w)).
Proof.
  induction chats as [|c chats IH]; intros i stale w H; [exact H|].
  cbn [deliver_loop].
  destruct (send_message e c message) as [|t]; apply IH.
  - apply tracks_run_handlers, tracks_emit, H.
  - apply tracks_logs, tracks_run_handlers, tracks_emit, H.
Qed.

Lemma tracks_send_daily_digest (l : nat) (x : Z) (w : world) :
  (forall text, permanent (send_message e x text) = false) ->
  tracks l x w ->
  exists l', tracks l' x (send_daily_digest rt e sched w).
Proof.
  intros Hx H. pose proof H as (Hl & _ & _).
  unfold send_daily_digest. rewrite Hl.
  destruct (bool_decide (to_set (deref (heap w) l) = ∅)).
  { exists l. apply tracks_logs, H. }
  destruct (build_daily_message (weather_task e) (fetch_positive_news rt (news_got e)))
    as [message warnings].
  set (w1 := logs warnings
               (run_handlers (sched 0%nat) (emit EvFetchNews (emit EvFetchWeather w)))).
  assert (H1 : tracks l x w1).
  { apply tracks_logs, tracks_run_handlers, tracks_emit, tracks_emit, H. }
  set (chats := elements (to_set (deref (heap w1) l))).
  pose proof (deliver_loop_stale message chats 1 ∅ w1) as Hst.
  pose proof (tracks_deliver_loop l x message chats 1 ∅ w1 H1) as H4.
  destruct (deliver_loop e sched message chats 1 ∅ w1) as [stale w4].
  cbn [fst snd] in Hst, H4.
  destruct (bool_decide (stale = ∅)); [exists l; exact H4|].
  destruct H4 as (Hl4 & (s4 & Hs4) & Hx4).
  exists (fresh (dom (heap w4))).
  assert (Hd : deref (heap w4) l = OSet s4) by (unfold deref; rewrite Hs4; reflexivity).
  rewrite Hd. cbn [to_set alloc].
  set (updated := s4 ∖ stale).
  assert (Hc : forall w', subscribers_ref w' = Some (fresh (dom (heap w4))) ->
                 heap w' = <[fresh (dom (heap w4)) := OSet updated]> (heap w4) ->
                 current_subscribers w' = updated).
  { intros w' Hr Hh. apply (current_subscribers_at _ (fresh (dom (heap w4)))); [exact Hr|].
    rewrite Hh. apply lookup_insert_eq. }
  match goal with
  | |- tracks _ _ ?wf =>
    assert (Hcf : current_subscribers wf = updated) by (apply Hc; reflexivity)
  end.
  split; [reflexivity|]. split.
  { exists updated. cbn [save_subscribers bind_subscribers emit heap].
    apply lookup_insert_eq. }
  destruct Hx4 as [[Hin _]|Hp].
  - left. unfold added. rewrite Hcf. split; [|reflexivity].
    rewrite (current_subscribers_at w4 l s4 Hl4 Hs4) in Hin.
    subst updated. apply elem_of_difference. split; [exact Hin|].
    rewrite Hst. rewrite elem_of_union, elem_of_list_to_set, list_elem_of_filter.
    specialize (Hx message). intros [Hf|[Hf _]]; [set_solver|congruence].
  - right. exact Hp.
Qed.

Lemma run_handlers_drain (w : world) : forall n : nat,
  (length (inbox w) <= n)%nat -> inbox (run_handlers n w) = [].
Proof.
  intros n. revert w. induction n as [|n IH]; intros w Hn.
  - destruct (inbox w) eqn:E; [exact E|simpl in Hn; lia].
  - cbn [run_handlers]. destruct (inbox w) as [|u rest] eqn:Hin; [exact Hin|].
    apply IH. rewrite start_handler_inbox. cbn [inbox]. simpl in Hn. lia.
Qed.

(** C3: in a cycle with no command waiting, [send_daily_digest] attempts
    one delivery to every subscriber of the snapshot and to nobody else,
    whatever the other deliveries do, and removes exactly the subscribers
    whose delivery raised an exception whose lower-cased text contains
    [forbidden] or [chat not found]; every other subscriber is kept. *)
Theorem send_daily_digest_delivers_to_all (w : world) :
  inbox w = [] ->
  let subs := current_subscribers w in
  let message := digest_message rt e in
  let w' := send_daily_digest rt e sched w in
  (exists order,
      sends (trace w') = sends (trace w) ++ map (fun c => (c, message)) order
      /\ NoDup order /\ (forall c, c ∈ order <-> c ∈ subs))
  /\ current_subscribers w' = subs ∖ unreachable e message subs
  /\ (forall c, c ∈ unreachable e message subs
        <-> c ∈ subs
            /\ exists t, send_message e c message = Failed t
                 /\ (occurs (lit "forbidden") (lower t)
                     \/ occurs (lit "chat not found") (lower t))).
Proof.
  intros Hq. cbv zeta.
  destruct (send_daily_digest_quiet w Hq) as (_ & Hsends & Hcur & _).
  split; [|split].
  - exists (elements (current_subscribers w)). split; [exact Hsends|].
    split; [apply NoDup_elements|]. intros c. apply elem_of_elements.
  - exact Hcur.
  - intros c. unfold unreachable. rewrite elem_of_filter. unfold permanent.
    split.
    + intros [Hp Hc]. split; [exact Hc|].
      destruct (send_message e c (digest_message rt e)) as [|t]; [discriminate|].
      exists t. split; [reflexivity|]. apply is_stale_error_spec, Hp.
    + intros [Hc (t & Ht & Hm)]. split; [|exact Hc].
      rewrite Ht. apply is_stale_error_spec, Hm.
Qed.

(** C6: with no subscriber, [send_daily_digest] does nothing to the outside
    (no fetch, no delivery, no reply, no write: the trace is unchanged) and
    leaves the heap, [bot_data], the file and the inbox as they are; it
    only logs that there are no subscribers. *)
Theorem send_daily_digest_no_subscribers (w : world) :
  current_subscribers w = ∅ ->
  let w' := send_daily_digest rt e sched w in
  trace w' = trace w /\ heap w' = heap w
  /\ subscribers_ref w' = subscribers_ref w /\ file w' = file w
  /\ inbox w' = inbox w /\ current_subscribers w' = ∅
  /\ log w' = log w ++ [InfoNoSubscribers].
Proof.
  intros Hs. cbv zeta.
  assert (Hw : send_daily_digest rt e sched w = logs [InfoNoSubscribers] w).
  { unfold current_subscribers in Hs. unfold send_daily_digest.
    destruct (subscribers_ref w) as [l|]; [|reflexivity].
    rewrite Hs, bool_decide_eq_true_2 by reflexivity. reflexivity. }
  rewrite Hw. repeat split. exact Hs.
Qed.

(** C7: after a cycle with no command waiting, when no delivery failed
    permanently the heap, [bot_data] and the file are unchanged and nothing
    was written; otherwise [bot_data] holds the old set minus the
    unreachable ids, and that set was written to the file, once. *)
Theorem send_daily_digest_prunes (w : world) :
  inbox w = [] ->
  let subs := current_subscribers w in
  let gone := unreachable e (digest_message rt e) subs in
  let w' := send_daily_digest rt e sched w in
  (gone = ∅ ->
     heap w' = heap w /\ subscribers_ref w' = subscribers_ref w
     /\ file w' = file w /\ writes (trace w') = writes (trace w)
     /\ current_subscribers w' = subs)
  /\ (gone <> ∅ ->
       current_subscribers w' = subs ∖ gone
       /\ file w' = FText (subscribers_text (subs ∖ gone))
       /\ writes (trace w') = writes (trace w) ++ [subscribers_text (subs ∖ gone)]).
Proof.
  intros Hq. cbv zeta.
  destruct (send_daily_digest_quiet w Hq) as (_ & _ & Hcur & Hsame & Hpruned).
  split.
  - intros Hg. destruct (Hsame Hg) as (H1 & H2 & H3 & H4).
    repeat split; try assumption. rewrite Hcur, Hg. set_solver.
  - intros Hg. destruct (Hpruned Hg) as (H1 & H2). repeat split; assumption.
Qed.

(** C9: a [/start] command of chat [x] that is waiting when a cycle begins
    takes effect whenever the event loop handles it (before the cycle, at
    any of its suspension points, or after it): once the cycle is over and
    the inbox is empty, [x] is in the set of [bot_data] and in the file,
    whatever the cycle pruned, provided [bot_data] held a set and the
    delivery to [x] itself does not fail permanently. *)
Theorem subscribe_during_digest_kept (n0 : nat) (w : world) (l : nat)
    (s : gset Z) (x : Z) :
  subscribers_ref w = Some l -> heap w !! l = Some (OSet s) ->
  pending x w ->
  (forall text, permanent (send_message e x text) = false) ->
  let w1 := send_daily_digest rt e sched (run_handlers n0 w) in
  let w' := run_handlers (length (inbox w1)) w1 in
  inbox w' = []
  /\ x ∈ current_subscribers w'
  /\ file w' = FText (subscribers_text (current_subscribers w'))
  /\ load_subscribers rt (file w') = (Return (current_subscribers w'), []).
Proof.
  intros Hl Hs Hp Hx w1 w'.
  assert (H0 : tracks l x w) by (split; [exact Hl|split; [eauto|right; exact Hp]]).
  apply (tracks_run_handlers l x n0) in H0.
  destruct (tracks_send_daily_digest l x _ Hx H0) as [l' H1]. fold w1 in H1.
  apply (tracks_run_handlers l' x (length (inbox w1))) in H1. fold w' in H1.
  assert (Hin : inbox w' = []) by (apply run_handlers_drain; lia).
  destruct H1 as (_ & _ & [[Ha Hf]|(u & Hu & _)]).
  - repeat split; try assumption. rewrite Hf. apply load_subscribers_text.
  - rewrite Hin in Hu. inversion Hu.
Qed.

End DigestFacts.

(** The scenario of the specification: subscribers 1, 2 and 3, and only
    chat 2 answers "Chat not found". *)
Lemma send_daily_digest_delivers_to_all_witness :
  let e := offline_env chat2_gone in
  let w' := send_daily_digest rejecting_runtime e (fun _ => 0%nat)
              (world_with {[1; 2; 3]} []) in
  current_subscribers w' = {[1; 3]}
  /\ forall c, c ∈ ({[1; 2; 3]} : gset Z) ->
       (c, digest_message rejecting_runtime e) ∈ sends (trace w').
Proof.
  intros e w'.
  destruct (send_daily_digest_delivers_to_all rejecting_runtime e (fun _ => 0%nat)
              (world_with {[1; 2; 3]} []) eq_refl)
    as ((order & Hsends & _ & Hmem) & Hcur & _).
  split.
  - fold w' in Hcur. rewrite Hcur. vm_compute. reflexivity.
  - intros c Hc. fold w' in Hsends. rewrite Hsends. cbn [sends omap list_omap app].
    apply list_elem_of_fmap. exists c. split; [reflexivity|].
    apply Hmem. exact Hc.
Defined.

Lemma send_daily_digest_no_subscribers_witness :
  trace (send_daily_digest rejecting_runtime (offline_env chat2_gone) (fun _ => 1%nat)
           (world_with ∅ [start_from 99]))
  = [].
Proof.
  destruct (send_daily_digest_no_subscribers rejecting_runtime (offline_env chat2_gone)
              (fun _ => 1%nat) (world_with ∅ [start_from 99]))
    as (H & _); [reflexivity|exact H].
Defined.

Lemma send_daily_digest_prunes_witness :
  (let w := world_with {[1; 2; 3]} [] in
   let w' := send_daily_digest rejecting_runtime (offline_env chat2_timeout)
               (fun _ => 0%nat) w in
   heap w' = heap w /\ file w' = FMissing /\ writes (trace w') = [])
  /\ (let w' := send_daily_digest rejecting_runtime (offline_env chat2_gone)
                  (fun _ => 0%nat) (world_with {[1; 2; 3]} []) in
      current_subscribers w' = {[1; 3]}
      /\ file w' = FText (subscribers_text {[1; 3]})
      /\ writes (trace w') = [subscribers_text {[1; 3]}]).
Proof.
  split.
  - intros w w'.
    destruct (send_daily_digest_prunes rejecting_runtime (offline_env chat2_timeout)
                (fun _ => 0%nat) w eq_refl) as [H _].
    destruct H as (H1 & _ & H3 & H4 & _); [vm_compute; reflexivity|].
    repeat split; assumption.
  - intros w'.
    destruct (send_daily_digest_prunes rejecting_runtime (offline_env chat2_gone)
                (fun _ => 0%nat) (world_with {[1; 2; 3]} []) eq_refl) as [_ H].
    destruct H as (H1 & H2 & H3); [vm_compute; discriminate|].
    fold w' in H1, H2, H3. rewrite H1, H2, H3.
    repeat split; vm_compute; reflexivity.
Defined.

(** Chat 99 subscribes while the digest is being delivered to the second
    of the subscribers 1 and 2, and chat 2 is pruned by that cycle. *)
Lemma subscribe_during_digest_kept_witness :
  let sched := fun i : nat => if (i =? 2)%nat then 1%nat else 0%nat in
  let w1 := send_daily_digest rejecting_runtime (offline_env chat2_gone) sched
              (run_handlers 0 (world_with {[1; 2]} [start_from 99])) in
  let w' := run_handlers (length (inbox w1)) w1 in
  99 ∈ current_subscribers w'
  /\ file w' = FText (subscribers_text (current_subscribers w')).
Proof.
  intros sched w1 w'.
  destruct (subscribe_during_digest_kept rejecting_runtime (offline_env chat2_gone)
              sched 0 (world_with {[1; 2]} [start_from 99]) 0%nat {[1; 2]} 99)
    as (_ & H1 & H2 & _).
  - reflexivity.
  - apply lookup_singleton_eq.
  - exists (start_from 99). split; [apply list_elem_of_here|reflexivity].
  - intros text. reflexivity.
  - split; assumption.
Defined.

(* ===================================================================== *)
(** * Start-up: [validate_env] and [main] *)
(* ===================================================================== *)


Lemma validate_env_none (t o n : str) :
  validate_env t o n = None <-> t <> [] /\ o <> [] /\ n <> [].
Proof.
  unfold validate_env.
  destruct t as [|t0 t], o as [|o0 o], n as [|n0 n];
    (split; [intros H; try discriminate H; repeat split; discriminate
            | intros (H1 & H2 & H3); try congruence; reflexivity]).
Qed.

(** X1: [validate_env] returns without raising exactly when the three
    variables are all non-empty; when it raises, the message starts with
    the fixed sentence and names a variable exactly when that variable is
    empty. *)
Theorem validate_env_names_missing (t o n : str) :
  (validate_env t o n = None <-> t <> [] /\ o <> [] /\ n <> [])
  /\ (forall message, validate_env t o n = Some message ->
        (exists names,
            message = lit "Missing required environment variables: " ++ names)
        /\ (occurs (lit "TELEGRAM_TOKEN") message <-> t = [])
        /\ (occurs (lit "OPENWEATHER_API_KEY") message <-> o = [])
        /\ (occurs (lit "NEWS_API_KEY") message <-> n = [])).
Proof.
  unfold validate_env.
  destruct t as [|t0 t], o as [|o0 o], n as [|n0 n];
    (split;
     [ split; [intros H; try discriminate H; repeat split; discriminate
              | intros (H1 & H2 & H3); try congruence; reflexivity]
     | intros message H; try discriminate H; injection H as <-;
       repeat split;
       try (eexists; reflexivity);
       try (intros _; reflexivity);
       try (intros H; discriminate H);
       try (intros _; apply contains_spec; vm_compute; reflexivity);
       try (intros H; apply contains_spec in H; vm_compute in H; discriminate H);
       try (apply contains_spec; vm_compute; reflexivity) ]).
Qed.

(* ===================================================================== *)
(** * More about the handler, the file and the cycle *)
(* ===================================================================== *)


(* ---------------- start_handler ---------------- *)


Lemma deref_insert (h : gmap nat pyobj) (l : nat) (o : pyobj) :
  deref (<[l := o]> h) l = o.
Proof. unfold deref. rewrite lookup_insert_eq. reflexivity. Qed.

Lemma heap_bind_subscribers (l : nat) (w : world) :
  heap (bind_subscribers l w) = heap w.
Proof. reflexivity. Qed.

(** What one [/start] does, whatever [bot_data] held. *)
Lemma start_handler_effect (u : update) (w : world) (y : Z) :
  effective_chat u = Some y ->
  let w' := start_handler u w in
  let s' := {[y]} ∪ current_subscribers w in
  current_subscribers w' = s'
  /\ bound_to_set w'
  /\ file w' = FText (subscribers_text s')
  /\ trace w' = trace w ++ [EvWrite (subscribers_text s')] ++ reply_events u y
  /\ log w' = log w
  /\ inbox w' = inbox w.
Proof.
  intros Hy. cbv zeta. unfold start_handler, current_subscribers, reply_events.
  rewrite Hy.
  assert (Hfin : forall (h : gmap nat pyobj) (r : option nat) (l : nat) (s : gset Z)
                   (f : file_state) (tr : list event),
     let w1 := save_subscribers s
                 (bind_subscribers l
                    (store l (OSet s)
                       {| heap := h; subscribers_ref := r; file := f;
                          trace := tr; log := log w; inbox := inbox w |})) in
     let w' := if effective_message u then emit (EvReply y) w1 else w1 in
     match subscribers_ref w' with
     | Some l' => to_set (deref (heap w') l')
     | None => ∅
     end = s
     /\ bound_to_set w'
     /\ file w' = FText (subscribers_text s)
     /\ trace w' = tr ++ [EvWrite (subscribers_text s)]
                      ++ (if effective_message u then [EvReply y] else [])
     /\ log w' = log w /\ inbox w' = inbox w).
  { intros h r l s f tr. cbv zeta.
    destruct (effective_message u);
      cbn [emit save_subscribers bind_subscribers store heap subscribers_ref file
           trace log inbox];
      unfold deref; rewrite lookup_insert_eq; cbn [default from_option id to_set];
      repeat split; try reflexivity;
      try (eexists _, _; split; [reflexivity|apply lookup_insert_eq]);
      try (rewrite <- app_assoc; reflexivity). }
  destruct (subscribers_ref w) as [l|] eqn:Hl.
  - destruct (deref (heap w) l) as [s|xs] eqn:Hd.
    + cbn beta iota zeta. rewrite Hd. cbn [to_set]. exact (Hfin (heap w) _ l ({[y]} ∪ s) (file w) (trace w)).
    + cbn [alloc heap]. cbn beta iota zeta. rewrite !deref_insert. cbn [to_set].
      exact (Hfin _ _ _ ({[y]} ∪ list_to_set xs) (file w) (trace w)).
  - cbn [alloc]. cbn beta iota zeta. rewrite !heap_bind_subscribers. cbn [heap].
    rewrite !deref_insert. cbn beta iota zeta.
    rewrite ?heap_bind_subscribers. cbn [heap]. rewrite ?deref_insert.
    cbn [to_set subscribers_ref file trace log inbox].
    exact (Hfin (<[fresh (dom (heap w)):=OSet ∅]> (heap w)) _ (fresh (dom (heap w)))
                  ({[y]} ∪ ∅) (file w) (trace w)).
Qed.


Lemma replies_app (a b : list event) : replies (a ++ b) = replies a ++ replies b.
Proof. apply omap_app. Qed.

Lemma reply_events_sends (u : update) (y : Z) : sends (reply_events u y) = [].
Proof. unfold reply_events. destruct (effective_message u); reflexivity. Qed.

Lemma reply_events_writes (u : update) (y : Z) : writes (reply_events u y) = [].
Proof. unfold reply_events. destruct (effective_message u); reflexivity. Qed.

Lemma reply_events_replies (u : update) (y : Z) :
  replies (reply_events u y) = if effective_message u then [y] else [].
Proof. unfold reply_events. destruct (effective_message u); reflexivity. Qed.

(** X2: whatever [bot_data] held, a [/start] from a chat makes the chat a
    subscriber and keeps everybody else, leaves [bot_data] bound to a set,
    writes that set to the file (one write), replies once when there is a
    message to reply to, and delivers no digest. *)
Theorem start_handler_subscribes (u : update) (w : world) (y : Z) :
  effective_chat u = Some y ->
  let w' := start_handler u w in
  (forall c, c ∈ current_subscribers w' <-> c = y \/ c ∈ current_subscribers w)
  /\ bound_to_set w'
  /\ file w' = FText (subscribers_text (current_subscribers w'))
  /\ writes (trace w') = writes (trace w) ++ [subscribers_text (current_subscribers w')]
  /\ replies (trace w') = replies (trace w) ++ (if effective_message u then [y] else [])
  /\ sends (trace w') = sends (trace w).
Proof.
  intros Hy. cbv zeta.
  destruct (start_handler_effect u w y Hy) as (Hc & Hb & Hf & Ht & _ & _).
  rewrite Hc, Ht, !sends_app, !writes_app, !replies_app,
    reply_events_sends, reply_events_writes, reply_events_replies.
  cbn [sends writes replies omap list_omap app]. rewrite ?app_nil_r.
  repeat split; try assumption; try reflexivity; set_solver.
Qed.

(** X3: a second [/start] from the same chat changes neither the set nor
    the file contents, but the file is written again and the confirmation is
    sent again. *)
Theorem start_handler_twice (u : update) (w : world) (y : Z) :
  effective_chat u = Some y ->
  let w1 := start_handler u w in
  let w2 := start_handler u w1 in
  current_subscribers w2 = current_subscribers w1
  /\ file w2 = file w1
  /\ writes (trace w2)
     = writes (trace w) ++ [subscribers_text (current_subscribers w1);
                            subscribers_text (current_subscribers w1)]
  /\ replies (trace w2)
     = replies (trace w) ++ (if effective_message u then [y; y] else []).
Proof.
  intros Hy. cbv zeta.
  destruct (start_handler_effect u w y Hy) as (Hc & _ & Hf & Ht & _ & _).
  destruct (start_handler_effect u (start_handler u w) y Hy) as (Hc2 & _ & Hf2 & Ht2 & _ & _).
  assert (Hsame : {[y]} ∪ current_subscribers (start_handler u w)
                  = current_subscribers (start_handler u w)).
  { rewrite Hc. set_solver. }
  rewrite Hsame in Hc2, Hf2, Ht2.
  rewrite Hc2, Hf2, Ht2, Ht, Hf, Hc.
  rewrite !writes_app, !replies_app, reply_events_writes, reply_events_replies.
  cbn [writes replies omap list_omap app]. rewrite ?app_nil_r, <- ?app_assoc.
  repeat split; try reflexivity.
  destruct (effective_message u); reflexivity.
Qed.

(* ---------------- invariants under any schedule ---------------- *)


Lemma run_handlers_preserves (P : world -> Prop) :
  (forall u w, P w -> P (start_handler u w)) ->
  (forall rest w, P w -> P (with_inbox rest w)) ->
  forall n w, P w -> P (run_handlers n w).
Proof.
  intros Hh Hi n. induction n as [|n IH]; intros w H; [exact H|].
  cbn [run_handlers]. destruct (inbox w) as [|u rest]; [exact H|].
  apply IH, Hh, (Hi rest w), H.
Qed.

Section ScheduleFacts.
Variable rt : runtime.
Variable e : env.
Variable sched : nat -> nat.

Lemma deliver_loop_preserves (P : world -> Prop) :
  (forall ev w, P w -> P (emit ev w)) ->
  (forall es w, P w -> P (logs es w)) ->
  (forall n w, P w -> P (run_handlers n w)) ->
  forall message chats i stale w,
  P w -> P (snd (deliver_loop e sched message chats i stale w)).
Proof.
  intros He Hl Hr message chats.
  induction chats as [|c chats IH]; intros i stale w H; [exact H|].
  cbn [deliver_loop]. destruct (send_message e c message) as [|t]; apply IH.
  - apply Hr, He, H.
  - apply Hl, Hr, He, H.
Qed.

(** *** [bot_data] stays bound to a set *)

Lemma bound_to_set_start_handler (u : update) (w : world) :
  bound_to_set w -> bound_to_set (start_handler u w).
Proof.
  intros H. destruct (effective_chat u) as [y|] eqn:Hy.
  - apply (start_handler_effect u w y Hy).
  - unfold start_handler. rewrite Hy. exact H.
Qed.

Lemma bound_to_set_run_handlers (n : nat) (w : world) :
  bound_to_set w -> bound_to_set (run_handlers n w).
Proof.
  apply run_handlers_preserves.
  - apply bound_to_set_start_handler.
  - intros rest w0 H. exact H.
Qed.

Lemma bound_to_set_send_daily_digest (w : world) :
  bound_to_set w -> bound_to_set (send_daily_digest rt e sched w).
Proof.
  intros H. unfold send_daily_digest.
  destruct (subscribers_ref w) as [l|] eqn:Hl; [|exact H].
  destruct (bool_decide (to_set (deref (heap w) l) = ∅)); [exact H|].
  destruct (build_daily_message (weather_task e) (fetch_positive_news rt (news_got e)))
    as [message warnings].
  match goal with
  | |- context [deliver_loop e sched message ?chats 1 ∅ ?w1] =>
    pose proof (deliver_loop_preserves bound_to_set
                  (fun _ _ H => H) (fun _ _ H => H) bound_to_set_run_handlers
                  message chats 1%nat ∅ w1) as H4;
    destruct (deliver_loop e sched message chats 1 ∅ w1) as [stale w4]
  end.
  cbn [snd] in H4.
  assert (Hb4 : bound_to_set w4).
  { apply H4. apply bound_to_set_run_handlers. exact H. }
  destruct (bool_decide (stale = ∅)); [exact Hb4|].
  cbn [alloc]. eexists _, _.
  cbn [save_subscribers bind_subscribers emit subscribers_ref heap].
  split; [reflexivity|apply lookup_insert_eq].
Qed.

(** *** The file agrees with the memory *)

Lemma persisted_start_handler (u : update) (w : world) :
  persisted rt w -> persisted rt (start_handler u w).
Proof.
  intros H. destruct (effective_chat u) as [y|] eqn:Hy.
  - destruct (start_handler_effect u w y Hy) as (Hc & _ & Hf & _).
    unfold persisted. rewrite Hf, Hc, load_subscribers_text. reflexivity.
  - unfold start_handler. rewrite Hy. exact H.
Qed.

Lemma persisted_run_handlers (n : nat) (w : world) :
  persisted rt w -> persisted rt (run_handlers n w).
Proof.
  apply run_handlers_preserves.
  - apply persisted_start_handler.
  - intros rest w0 H. exact H.
Qed.

Lemma persisted_send_daily_digest (w : world) :
  persisted rt w -> persisted rt (send_daily_digest rt e sched w).
Proof.
  intros H. unfold send_daily_digest.
  destruct (subscribers_ref w) as [l|] eqn:Hl; [|exact H].
  destruct (bool_decide (to_set (deref (heap w) l) = ∅)); [exact H|].
  destruct (build_daily_message (weather_task e) (fetch_positive_news rt (news_got e)))
    as [message warnings].
  match goal with
  | |- context [deliver_loop e sched message ?chats 1 ∅ ?w1] =>
    pose proof (deliver_loop_preserves (persisted rt)
                  (fun _ _ H => H) (fun _ _ H => H) persisted_run_handlers
                  message chats 1%nat ∅ w1) as H4;
    destruct (deliver_loop e sched message chats 1 ∅ w1) as [stale w4]
  end.
  cbn [snd] in H4.
  assert (Hb4 : persisted rt w4).
  { apply H4. apply persisted_run_handlers. exact H. }
  destruct (bool_decide (stale = ∅)); [exact Hb4|].
  cbn [alloc]. unfold persisted, current_subscribers.
  cbn [save_subscribers bind_subscribers emit subscribers_ref heap file].
  rewrite deref_insert, load_subscribers_text. reflexivity.
Qed.

(** *** Nobody is dropped without a permanent failure *)

(** The handler only adds members to the objects it touches. *)
Lemma start_handler_heap_grows (u : update) (w : world) (l : nat) (c : Z) :
  c ∈ to_set (deref (heap w) l) ->
  c ∈ to_set (deref (heap (start_handler u w)) l).
Proof.
  intros Hc.
  assert (Hdom : heap w !! l <> None).
  { intros Hn. unfold deref in Hc. rewrite Hn in Hc. set_solver. }
  assert (Hfresh : fresh (dom (heap w)) <> l).
  { intros <-. apply Hdom. apply not_elem_of_dom. apply is_fresh. }
  assert (Hfin : forall (h : gmap nat pyobj) (r : option nat) (l0 : nat) (s : gset Z)
                   (f : file_state) (tr : list event) (y : Z),
     c ∈ to_set (deref (<[l0 := OSet s]> h) l) ->
     let w1 := save_subscribers s
                 (bind_subscribers l0
                    (store l0 (OSet s)
                       {| heap := h; subscribers_ref := r; file := f;
                          trace := tr; log := log w; inbox := inbox w |})) in
     c ∈ to_set (deref (heap (if effective_message u then emit (EvReply y) w1 else w1)) l)).
  { intros h r l0 s f tr y H. cbv zeta. destruct (effective_message u); exact H. }
  assert (Hins : forall (h : gmap nat pyobj) (l0 : nat) (s : gset Z),
     (l0 = l -> c ∈ s) -> (l0 <> l -> c ∈ to_set (deref h l)) ->
     c ∈ to_set (deref (<[l0 := OSet s]> h) l)).
  { intros h l0 s H1 H2. unfold deref. destruct (decide (l0 = l)) as [->|Hne].
    - rewrite lookup_insert_eq. apply H1. reflexivity.
    - rewrite lookup_insert_ne by exact Hne. apply H2, Hne. }
  unfold start_handler. destruct (effective_chat u) as [y|]; [|exact Hc].
  destruct (subscribers_ref w) as [l0|].
  - destruct (deref (heap w) l0) as [s|xs] eqn:Hd.
    + cbn beta iota zeta. rewrite Hd. cbn [to_set].
      apply (Hfin (heap w) _ l0 ({[y]} ∪ s) (file w) (trace w) y).
      apply Hins; [|intros _; exact Hc].
      intros ->. rewrite Hd in Hc. set_solver.
    + cbn [alloc heap]. cbn beta iota zeta. rewrite !deref_insert. cbn [to_set].
      apply (Hfin _ _ _ ({[y]} ∪ list_to_set xs) (file w) (trace w) y).
      apply Hins; [intros Heq; contradiction|intros _].
      apply Hins; [intros Heq; contradiction|intros _; exact Hc].
  - cbn [alloc]. cbn beta iota zeta. rewrite !heap_bind_subscribers. cbn [heap].
    rewrite !deref_insert. cbn beta iota zeta.
    rewrite ?heap_bind_subscribers. cbn [heap]. rewrite ?deref_insert.
    cbn [to_set subscribers_ref file trace log inbox].
    apply (Hfin (<[fresh (dom (heap w)):=OSet ∅]> (heap w)) _ (fresh (dom (heap w)))
                  ({[y]} ∪ ∅) (file w) (trace w) y).
    apply Hins; [intros Heq; contradiction|intros _].
    apply Hins; [intros Heq; contradiction|intros _; exact Hc].
Qed.


Lemma current_subscribers_start_handler (u : update) (w : world) (c : Z) :
  c ∈ current_subscribers w -> c ∈ current_subscribers (start_handler u w).
Proof.
  intros H. destruct (effective_chat u) as [y|] eqn:Hy.
  - destruct (start_handler_effect u w y Hy) as (Hc & _). rewrite Hc. set_solver.
  - unfold start_handler. rewrite Hy. exact H.
Qed.

Lemma keeps_run_handlers (c : Z) (l : nat) (n : nat) (w : world) :
  keeps c l w -> keeps c l (run_handlers n w).
Proof.
  apply run_handlers_preserves.
  - intros u w0 [H1 H2]. split.
    + apply start_handler_heap_grows, H1.
    + apply current_subscribers_start_handler, H2.
  - intros rest w0 H. exact H.
Qed.

Lemma current_subscribers_run_handlers (c : Z) (n : nat) (w : world) :
  c ∈ current_subscribers w -> c ∈ current_subscribers (run_handlers n w).
Proof.
  apply (run_handlers_preserves (fun w => c ∈ current_subscribers w)).
  - intros u w0. apply current_subscribers_start_handler.
  - intros rest w0 H. exact H.
Qed.

Lemma current_subscribers_send_daily_digest (w : world) (c : Z) :
  c ∈ current_subscribers w ->
  permanent (send_message e c (digest_message rt e)) = false ->
  c ∈ current_subscribers (send_daily_digest rt e sched w).
Proof.
  intros Hc Hp. unfold send_daily_digest, digest_message in *.
  unfold current_subscribers in Hc.
  destruct (subscribers_ref w) as [l|] eqn:Hl; [|set_solver].
  assert (H : keeps c l w).
  { split; [exact Hc|]. unfold current_subscribers. rewrite Hl. exact Hc. }
  destruct (bool_decide (to_set (deref (heap w) l) = ∅)).
  { unfold current_subscribers. cbn [logs subscribers_ref heap]. rewrite Hl. exact Hc. }
  destruct (build_daily_message (weather_task e) (fetch_positive_news rt (news_got e)))
    as [message warnings]. cbn [fst] in Hp.
  match goal with
  | |- context [deliver_loop e sched message ?chats 1 ∅ ?w1] =>
    pose proof (deliver_loop_preserves (keeps c l)
                  (fun _ _ H => H) (fun _ _ H => H) (keeps_run_handlers c l)
                  message chats 1%nat ∅ w1) as H4;
    pose proof (deliver_loop_stale e sched message chats 1 ∅ w1) as Hst;
    destruct (deliver_loop e sched message chats 1 ∅ w1) as [stale w4]
  end.
  cbn [fst snd] in H4, Hst.
  assert (Hk4 : keeps c l w4).
  { apply H4. apply keeps_run_handlers. exact H. }
  destruct (bool_decide (stale = ∅)); [apply Hk4|].
  cbn [alloc]. unfold current_subscribers.
  cbn [save_subscribers bind_subscribers emit subscribers_ref heap].
  rewrite deref_insert. cbn [to_set].
  apply elem_of_difference. split; [apply Hk4|].
  rewrite Hst, elem_of_union, elem_of_list_to_set, list_elem_of_filter.
  intros [Hf|[Hf _]]; [set_solver|congruence].
Qed.

(** X6: once [bot_data] is bound to a set object it stays bound to one,
    through every handler and every cycle under any schedule (so the
    conversion of line 183 is never needed after [main]). *)
Theorem bot_data_stays_a_set (n : nat) (u : update) (w : world) :
  bound_to_set w ->
  bound_to_set (start_handler u w)
  /\ bound_to_set (run_handlers n w)
  /\ bound_to_set (send_daily_digest rt e sched w).
Proof.
  intros H. split; [|split].
  - apply bound_to_set_start_handler, H.
  - apply bound_to_set_run_handlers, H.
  - apply bound_to_set_send_daily_digest, H.
Qed.

(** X7: when the file agrees with the memory (a restart would load the set
    that [bot_data] holds), it still does after every handler and every
    cycle, under any schedule. *)
Theorem file_follows_memory (n : nat) (u : update) (w : world) :
  persisted rt w ->
  persisted rt (start_handler u w)
  /\ persisted rt (run_handlers n w)
  /\ persisted rt (send_daily_digest rt e sched w).
Proof.
  intros H. split; [|split].
  - apply persisted_start_handler, H.
  - apply persisted_run_handlers, H.
  - apply persisted_send_daily_digest, H.
Qed.

(** X8: a subscriber is never dropped by a handler, and is dropped by a
    cycle, under any schedule and whatever [bot_data] is bound to, only if
    its own delivery fails permanently. *)
Theorem reachable_subscriber_is_kept (n : nat) (w : world) (c : Z) :
  c ∈ current_subscribers w ->
  c ∈ current_subscribers (run_handlers n w)
  /\ (permanent (send_message e c (digest_message rt e)) = false ->
      c ∈ current_subscribers (send_daily_digest rt e sched w)).
Proof.
  intros H. split.
  - apply current_subscribers_run_handlers, H.
  - apply current_subscribers_send_daily_digest, H.
Qed.

End ScheduleFacts.

(* ---------------- load_subscribers: what is not caught ---------------- *)

Section LoadEscapes.
Variable rt : runtime.



(* ---------------- main ---------------- *)

(** X5: [main] stops with [RuntimeError] before it looks at the file when a
    variable is empty; otherwise, when [load_subscribers] returns a set,
    polling starts in a world where [bot_data] is bound to a set object
    holding exactly that set, the file is untouched and agrees with the
    memory, and nothing has been sent. *)
Theorem main_setup_state (t o n : str) (f : file_state) :
  (t = [] \/ o = [] \/ n = [] -> main_setup rt t o n f = (Raise RuntimeError, []))
  /\ (t <> [] -> o <> [] -> n <> [] ->
      forall s logged, load_subscribers rt f = (Return s, logged) ->
      exists w, main_setup rt t o n f = (Return w, logged)
        /\ current_subscribers w = s /\ bound_to_set w /\ persisted rt w
        /\ file w = f /\ trace w = [] /\ inbox w = []).
Proof.
  split.
  - intros H. unfold main_setup.
    destruct (validate_env t o n) eqn:E; [reflexivity|].
    apply validate_env_none in E. tauto.
  - intros Ht Ho Hn s logged Hl. unfold main_setup.
    assert (E : validate_env t o n = None)
      by (apply validate_env_none; auto).
    rewrite E, Hl. eexists. split; [reflexivity|].
    assert (Hc : current_subscribers
                   {| heap := {[0%nat := OSet s]}; subscribers_ref := Some 0%nat;
                      file := f; trace := []; log := logged; inbox := [] |} = s).
    { unfold current_subscribers, deref. cbn [subscribers_ref heap].
      rewrite lookup_singleton_eq. reflexivity. }
    repeat split; try reflexivity; try exact Hc.
    + exists 0%nat, s. split; [reflexivity|apply lookup_singleton_eq].
    + unfold persisted. rewrite Hc. cbn [file]. rewrite Hl. reflexivity.
Qed.

End LoadEscapes.

(* ---------------- one quiet cycle, in order ---------------- *)

Lemma build_daily_message_warnings (wr : pyresult weather) (nr : pyresult (option news)) :
  snd (build_daily_message wr nr) = expected_warnings wr nr.
Proof. destruct wr as [e1|w], nr as [e2|[n|]]; reflexivity. Qed.

Section CycleFacts.
Variable rt : runtime.
Variable e : env.
Variable sched : nat -> nat.

(** X9: a cycle with subscribers and no command waiting does, in this
    order: the two fetches, once; one delivery per subscriber, all with the
    same text; then one write of the pruned set if some delivery failed
    permanently, and no write otherwise.  It logs the upstream failures,
    then one warning per failed delivery, in delivery order. *)
Theorem send_daily_digest_in_order (w : world) :
  inbox w = [] -> current_subscribers w <> ∅ ->
  let subs := current_subscribers w in
  let message := digest_message rt e in
  let gone := unreachable e message subs in
  let w' := send_daily_digest rt e sched w in
  trace w' = trace w ++ [EvFetchWeather; EvFetchNews]
               ++ map (fun c => EvSend c message) (elements subs)
               ++ (if decide (gone = ∅) then []
                   else [EvWrite (subscribers_text (subs ∖ gone))])
  /\ log w' = log w
               ++ expected_warnings (weather_task e) (fetch_positive_news rt (news_got e))
               ++ send_warnings e message (elements subs).
Proof.
  intros Hq Hs. cbv zeta.
  set (message := digest_message rt e).
  remember (current_subscribers w) as subs eqn:Hsubs.
  remember (unreachable e message subs) as gone eqn:Hgone.
  unfold send_daily_digest. unfold current_subscribers in Hsubs.
  destruct (subscribers_ref w) as [l|] eqn:Hl; [|congruence].
  rewrite <- Hsubs. rewrite bool_decide_eq_false_2 by exact Hs.
  rewrite run_handlers_quiet by exact Hq.
  pose proof (build_daily_message_warnings (weather_task e)
                (fetch_positive_news rt (news_got e))) as Hwarn.
  destruct (build_daily_message (weather_task e) (fetch_positive_news rt (news_got e)))
    as [msg warnings] eqn:Hb.
  cbn [snd] in Hwarn. subst warnings.
  assert (Hm : msg = message).
  { subst message. unfold digest_message. rewrite Hb. reflexivity. }
  subst msg.
  match goal with
  | |- context [deliver_loop e sched message _ 1 ∅ ?w0] => set (w1 := w0)
  end.
  assert (Hq1 : inbox w1 = []) by exact Hq.
  change (deref (heap w1) l) with (deref (heap w) l). rewrite <- Hsubs.
  pose proof (deliver_loop_stale e sched message (elements subs) 1 ∅ w1) as Hst.
  pose proof (deliver_loop_quiet e sched message (elements subs) 1 ∅ w1 Hq1) as Hw.
  destruct (deliver_loop e sched message (elements subs) 1 ∅ w1) as [stale w4].
  cbn [fst snd] in Hst, Hw. cbv zeta in Hw.
  destruct Hw as (H1 & H2 & H3 & H4 & H5 & H6).
  rewrite unreachable_elements, union_empty_l_L, <- Hgone in Hst. subst stale.
  destruct (decide (gone = ∅)) as [Hg|Hg].
  - rewrite bool_decide_eq_true_2 by exact Hg.
    rewrite H5, H6. cbn [w1 logs emit trace log]. rewrite <- !app_assoc, ?app_nil_r.
    split; reflexivity.
  - rewrite bool_decide_eq_false_2 by exact Hg.
    rewrite H1. change (deref (heap w1) l) with (deref (heap w) l). rewrite <- Hsubs.
    cbn [alloc bind_subscribers save_subscribers emit trace log].
    rewrite H5, H6. cbn [w1 logs emit trace log]. rewrite <- !app_assoc.
    split; reflexivity.
Qed.

(** X10: a second cycle with the same delivery outcomes prunes nobody: the
    set, the heap, [bot_data] and the file are as the first cycle left them,
    and nothing more is written. *)
Theorem send_daily_digest_second_cycle (w : world) :
  inbox w = [] ->
  let w1 := send_daily_digest rt e sched w in
  let w2 := send_daily_digest rt e sched w1 in
  current_subscribers w2 = current_subscribers w1
  /\ heap w2 = heap w1 /\ subscribers_ref w2 = subscribers_ref w1
  /\ file w2 = file w1 /\ writes (trace w2) = writes (trace w1).
Proof.
  intros Hq. cbv zeta.
  destruct (send_daily_digest_quiet rt e sched w Hq) as (Hq1 & _ & Hc1 & _).
  destruct (send_daily_digest_quiet rt e sched _ Hq1) as (_ & _ & Hc2 & Hsame & _).
  assert (Hg : unreachable e (digest_message rt e)
                 (current_subscribers (send_daily_digest rt e sched w)) = ∅).
  { rewrite Hc1. unfold unreachable. apply set_eq. intros c.
    rewrite !elem_of_filter, elem_of_difference, elem_of_filter. set_solver. }
  destruct (Hsame Hg) as (H1 & H2 & H3 & H4).
  rewrite Hc2, Hg. repeat split; try assumption. set_solver.
Qed.

End CycleFacts.


(* ---------------- deliveries follow the snapshot ---------------- *)

Lemma sends_start_handler (u : update) (w : world) :
  sends (trace (start_handler u w)) = sends (trace w).
Proof.
  destruct (effective_chat u) as [y|] eqn:Hy.
  - destruct (start_handler_effect u w y Hy) as (_ & _ & _ & Ht & _).
    rewrite Ht, !sends_app, reply_events_sends. cbn. rewrite app_nil_r. reflexivity.
  - unfold start_handler. rewrite Hy. reflexivity.
Qed.

Lemma sends_run_handlers (n : nat) : forall w,
  sends (trace (run_handlers n w)) = sends (trace w).
Proof.
  induction n as [|n IH]; intros w; [reflexivity|].
  cbn [run_handlers]. destruct (inbox w) as [|u rest]; [reflexivity|].
  rewrite IH, sends_start_handler. reflexivity.
Qed.


Lemma set_at_start_handler (l : nat) (u : update) (w : world) :
  set_at l w -> set_at l (start_handler u w).
Proof.
  intros [Hl [s Hs]]. destruct (effective_chat u) as [y|] eqn:Hy.
  - destruct (start_handler_on_set u w l s y Hl Hs Hy) as (H1 & H2 & _).
    split; [exact H1|eauto].
  - unfold start_handler. rewrite Hy. split; eauto.
Qed.

Lemma set_at_run_handlers (l : nat) (n : nat) (w : world) :
  set_at l w -> set_at l (run_handlers n w).
Proof.
  apply run_handlers_preserves.
  - apply set_at_start_handler.
  - intros rest w0 H. exact H.
Qed.

Section SnapshotFacts.
Variable rt : runtime.
Variable e : env.
Variable sched : nat -> nat.

Lemma deliver_loop_sends (message : str) (chats : list Z) :
  forall (i : nat) (stale : gset Z) (w : world),
  sends (trace (snd (deliver_loop e sched message chats i stale w)))
  = sends (trace w) ++ map (fun c => (c, message)) chats.
Proof.
  induction chats as [|c chats IH]; intros i stale w.
  - cbn. rewrite app_nil_r. reflexivity.
  - cbn [deliver_loop map].
    destruct (send_message e c message) as [|t]; rewrite IH;
      cbn [logs trace]; rewrite sends_run_handlers; cbn [emit trace];
      rewrite sends_app; cbn [sends omap list_omap]; rewrite <- app_assoc; reflexivity.
Qed.

(** X11: under any schedule, the deliveries of a cycle go, once each, to the
    subscribers at the moment the assembly of the message completes: a
    [/start] handled during the assembly is served in this cycle, one
    handled during the deliveries is not. *)
Theorem send_daily_digest_snapshot (w : world) :
  bound_to_set w -> current_subscribers w <> ∅ ->
  let assembled := run_handlers (sched 0%nat) (emit EvFetchNews (emit EvFetchWeather w)) in
  sends (trace (send_daily_digest rt e sched w))
  = sends (trace w)
    ++ map (fun c => (c, digest_message rt e)) (elements (current_subscribers assembled)).
Proof.
  intros (l & s & Hl & Hs) Hne. cbv zeta.
  unfold send_daily_digest, digest_message.
  unfold current_subscribers in Hne. rewrite Hl in *.
  rewrite bool_decide_eq_false_2 by exact Hne.
  destruct (build_daily_message (weather_task e) (fetch_positive_news rt (news_got e)))
    as [message warnings]. cbn [fst].
  set (w0 := run_handlers (sched 0%nat) (emit EvFetchNews (emit EvFetchWeather w))).
  assert (H0 : set_at l w0).
  { apply set_at_run_handlers. split; [exact Hl|eauto]. }
  assert (Hc : current_subscribers w0 = to_set (deref (heap w0) l)).
  { unfold current_subscribers. destruct H0 as [-> _]. reflexivity. }
  rewrite Hc.
  change (deref (heap (logs warnings w0)) l) with (deref (heap w0) l).
  pose proof (deliver_loop_sends message (elements (to_set (deref (heap w0) l))) 1 ∅
                (logs warnings w0)) as Hsnd.
  destruct (deliver_loop e sched message (elements (to_set (deref (heap w0) l))) 1 ∅
              (logs warnings w0)) as [stale w4].
  cbn [snd] in Hsnd.
  assert (Hw0 : sends (trace (logs warnings w0)) = sends (trace w)).
  { cbn [logs trace]. unfold w0. rewrite sends_run_handlers. cbn [emit trace].
    rewrite !sends_app. cbn. rewrite !app_nil_r. reflexivity. }
  rewrite Hw0 in Hsnd.
  destruct (bool_decide (stale = ∅)); [exact Hsnd|].
  cbn [alloc save_subscribers bind_subscribers emit trace].
  rewrite sends_app, Hsnd. cbn. rewrite app_nil_r. reflexivity.
Qed.

End SnapshotFacts.

(* ---------------- strings: strip ---------------- *)

Lemma lstrip_idem (s : str) : lstrip (lstrip s) = lstrip s.
Proof.
  induction s as [|c s IH]; [reflexivity|].
  cbn [lstrip]. destruct (isspace c) eqn:E; [exact IH|].
  cbn [lstrip]. rewrite E. reflexivity.
Qed.

Lemma lstrip_suffix (s : str) : exists sp, s = sp ++ lstrip s.
Proof.
  induction s as [|c s [sp IH]]; [exists []; reflexivity|].
  cbn [lstrip]. destruct (isspace c).
  - exists (c :: sp). cbn. f_equal. exact IH.
  - exists []. reflexivity.
Qed.

Lemma rstrip_idem (s : str) : rstrip (rstrip s) = rstrip s.
Proof. unfold rstrip. rewrite rev_involutive, lstrip_idem. reflexivity. Qed.

Lemma rstrip_prefix (s : str) : exists sp, s = rstrip s ++ sp.
Proof.
  destruct (lstrip_suffix (rev s)) as [sp H].
  exists (rev sp). unfold rstrip. rewrite <- rev_app_distr, <- H, rev_involutive.
  reflexivity.
Qed.

Lemma lstrip_rstrip (s : str) : lstrip s = s -> lstrip (rstrip s) = rstrip s.
Proof.
  intros H. destruct (rstrip_prefix s) as [sp Hsp].
  destruct (rstrip s) as [|c r] eqn:E; [reflexivity|].
  rewrite Hsp in H. cbn [app lstrip] in H. cbn [lstrip].
  destruct (isspace c); [|reflexivity].
  exfalso. pose proof (lstrip_length (r ++ sp)) as Hlen.
  rewrite H in Hlen. simpl in Hlen. lia.
Qed.

Lemma strip_idem (s : str) : strip (strip s) = strip s.
Proof.
  unfold strip.
  rewrite (lstrip_rstrip (lstrip s) (lstrip_idem s)). apply rstrip_idem.
Qed.

(* ---------------- fetch_positive_news: what a result guarantees ---------------- *)

Section FetchSound.
Variable rt : runtime.

Lemma field_text_stripped (key : str) (members : list (str * value)) (t : str) :
  field_text rt key members = Return t -> exists s, t = strip s.
Proof.
  unfold field_text. destruct (truthy rt (default JNull (get key members))).
  - destruct (default JNull (get key members)); intros H; try discriminate H.
    injection H as <-. eauto.
  - intros H. injection H as <-. eauto.
Qed.

Lemma nonempty_inv (s : str) : nonempty s = true -> s <> [].
Proof.
  unfold nonempty, str_eqb. intros H. apply negb_true_iff in H.
  apply bool_decide_eq_false_1 in H. exact H.
Qed.

Lemma clip_nonempty (d : str) : d <> [] -> clip d <> [].
Proof.
  intros H. unfold clip. destruct (MAX_DESCRIPTION_LEN <? length d)%nat; [|exact H].
  intros E. apply app_eq_nil in E as [_ E]. discriminate E.
Qed.

Lemma clip_length (d : str) : (length (clip d) <= MAX_DESCRIPTION_LEN)%nat.
Proof.
  destruct (Nat.le_gt_cases (length d) MAX_DESCRIPTION_LEN) as [H|H].
  - rewrite clip_short by exact H. exact H.
  - apply clip_long, H.
Qed.


Lemma select_article_sound (articles : list value) (n : news) :
  select_article rt articles = Return (Some n) ->
  well_formed_news n /\ exists a, a ∈ articles /\ exists members, a = JObj members.
Proof.
  induction articles as [|a articles IH]; [discriminate|].
  cbn [select_article]. destruct a; try discriminate.
  destruct (field_text rt (lit "title") members) as [|t] eqn:Ht; [discriminate|].
  destruct (field_text rt (lit "description") members) as [|d] eqn:Hd; [discriminate|].
  destruct (field_text rt (lit "url") members) as [|u] eqn:Hu; [discriminate|].
  cbn [mbind pyresult_bind].
  destruct (nonempty t && nonempty d && nonempty u) eqn:Hne.
  - intros H. injection H as <-.
    apply andb_prop in Hne as [Hne Hnu]. apply andb_prop in Hne as [Hnt Hnd].
    apply nonempty_inv in Hnt, Hnd, Hnu.
    destruct (field_text_stripped _ _ _ Ht) as [st ->].
    destruct (field_text_stripped _ _ _ Hu) as [su ->].
    split.
    + unfold well_formed_news, trimmed. cbn [news_title news_description news_url].
      repeat split; try assumption; try apply strip_idem.
      * apply clip_nonempty, Hnd.
      * apply clip_length.
    + exists (JObj members). split; [apply list_elem_of_here|eauto].
  - intros H. destruct (IH H) as (Hw & a & Ha & Hm).
    split; [exact Hw|]. exists a. split; [apply list_elem_of_further, Ha|exact Hm].
Qed.

(** X12: whatever the upstream answers, [fetch_positive_news] returns a
    news item only for a 2xx response whose body is a JSON object that is
    not an error report, and the item has a non-empty title, description and
    URL, a title and a URL without surrounding white space, and a
    description of at most 260 characters. *)
Theorem fetch_positive_news_sound (got : pyresult response) (n : news) :
  fetch_positive_news rt got = Return (Some n) ->
  (exists r payload,
      got = Return r /\ is_success (status_code r) = true
      /\ json_body r = Some (JObj payload) /\ status_is_error payload = false)
  /\ news_title n <> [] /\ news_description n <> [] /\ news_url n <> []
  /\ trimmed (news_title n) /\ trimmed (news_url n)
  /\ (length (news_description n) <= MAX_DESCRIPTION_LEN)%nat.
Proof.
  unfold fetch_positive_news. destruct got as [ex|r]; [discriminate|].
  cbn [mbind pyresult_bind].
  destruct (status_code r =? 429); [discriminate|].
  destruct (is_success (status_code r)) eqn:Hs; [|discriminate]. cbn [negb].
  destruct (json_body r) as [[| | | | | |payload]|] eqn:Hb; try discriminate.
  destruct (status_is_error payload) eqn:He; [discriminate|].
  destruct (iterate (default (JArr []) (get (lit "articles") payload))) as [|articles];
    [discriminate|].
  cbn [mbind pyresult_bind]. intros H.
  destruct (select_article_sound articles n H) as [Hw _].
  split; [|exact Hw].
  exists r, payload. repeat split; assumption.
Qed.

End FetchSound.


(* ---------------- only /start subscribes ---------------- *)



Lemma chats_of_cons (u : update) (rest : list update) :
  chats_of (u :: rest)
  = match effective_chat u with Some y => {[y]} | None => ∅ end ∪ chats_of rest.
Proof.
  unfold chats_of. cbn [omap list_omap]. destruct (effective_chat u); cbn; set_solver.
Qed.

Lemma within_run_handlers (l : nat) (allowed : gset Z) (n : nat) :
  forall w, within l allowed w -> within l allowed (run_handlers n w).
Proof.
  induction n as [|n IH]; intros w H; [exact H|].
  cbn [run_handlers]. destruct (inbox w) as [|u rest] eqn:Hin; [exact H|].
  apply IH. destruct H as (Hs & Hc & Hi). rewrite Hin, chats_of_cons in Hi.
  set (w0 := {| heap := heap w; subscribers_ref := subscribers_ref w; file := file w;
                trace := trace w; log := log w; inbox := rest |}).
  assert (Hs0 : set_at l w0) by exact Hs.
  split; [apply set_at_start_handler, Hs0|].
  destruct (effective_chat u) as [y|] eqn:Hy.
  - destruct (start_handler_effect u w0 y Hy) as (Hcur & _ & _ & _ & _ & Hinb).
    rewrite Hcur, Hinb. cbn [w0 inbox].
    change (current_subscribers w0) with (current_subscribers w).
    split; set_solver.
  - unfold start_handler. rewrite Hy. cbn [w0 inbox].
    change (current_subscribers w0) with (current_subscribers w).
    split; set_solver.
Qed.

Section OnlyStart.
Variable rt : runtime.
Variable e : env.
Variable sched : nat -> nat.

Lemma within_send_daily_digest (l : nat) (allowed : gset Z) (w : world) :
  within l allowed w ->
  exists l', within l' allowed (send_daily_digest rt e sched w).
Proof.
  intros H. pose proof H as ((Hl & _) & _ & _).
  unfold send_daily_digest. rewrite Hl.
  destruct (bool_decide (to_set (deref (heap w) l) = ∅)); [exists l; exact H|].
  destruct (build_daily_message (weather_task e) (fetch_positive_news rt (news_got e)))
    as [message warnings].
  match goal with
  | |- context [deliver_loop e sched message ?chats 1 ∅ ?w1] =>
    pose proof (deliver_loop_preserves e sched (within l allowed)
                  (fun _ _ H => H) (fun _ _ H => H) (within_run_handlers l allowed)
                  message chats 1%nat ∅ w1) as H4;
    destruct (deliver_loop e sched message chats 1 ∅ w1) as [stale w4]
  end.
  cbn [snd] in H4.
  assert (Hw4 : within l allowed w4).
  { apply H4. apply (within_run_handlers l allowed). exact H. }
  destruct (bool_decide (stale = ∅)); [exists l; exact Hw4|].
  destruct Hw4 as ((Hl4 & s4 & Hs4) & Hc4 & Hi4).
  exists (fresh (dom (heap w4))). cbn [alloc].
  split; [|split].
  - split; [reflexivity|]. eexists.
    cbn [save_subscribers bind_subscribers emit heap]. apply lookup_insert_eq.
  - unfold current_subscribers in *.
    cbn [save_subscribers bind_subscribers emit subscribers_ref heap].
    rewrite deref_insert. cbn [to_set]. rewrite Hl4 in Hc4. set_solver.
  - exact Hi4.
Qed.

(** X13: neither the handlers nor a cycle, under any schedule, subscribe a
    chat that was not subscribed and has no [/start] waiting. *)
Theorem only_start_subscribes (n : nat) (w : world) (c : Z) :
  bound_to_set w ->
  (c ∈ current_subscribers (run_handlers n w) ->
     c ∈ current_subscribers w \/ pending c w)
  /\ (c ∈ current_subscribers (send_daily_digest rt e sched w) ->
     c ∈ current_subscribers w \/ pending c w).
Proof.
  intros (l & s & Hl & Hs).
  set (allowed := current_subscribers w ∪ chats_of (inbox w)).
  assert (H : within l allowed w).
  { split; [split; [exact Hl|eauto]|]. subst allowed. split; set_solver. }
  assert (Hall : forall x, x ∈ allowed -> x ∈ current_subscribers w \/ pending x w).
  { intros x Hx. subst allowed. apply elem_of_union in Hx as [Hx|Hx]; [left; exact Hx|].
    right. unfold chats_of in Hx. apply elem_of_list_to_set, list_elem_of_omap in Hx.
    destruct Hx as (u & Hu & Hy). exists u. split; assumption. }
  split; intros Hc; apply Hall.
  - destruct (within_run_handlers l allowed n w H) as (_ & Hsub & _). set_solver.
  - destruct (within_send_daily_digest l allowed w H) as (l' & _ & Hsub & _). set_solver.
Qed.

End OnlyStart.

(* ---------------- articles: edge cases ---------------- *)

(** X14: on a 200 response that is not an error report, a payload without
    the key [articles], or with an empty list under it, gives [None] as a
    result (no match, not a failure); [null] under that key makes the
    function raise [TypeError]. *)
Theorem fetch_positive_news_articles_edge (rt : runtime) (payload : list (str * value)) :
  status_is_error payload = false ->
  let result := fetch_positive_news rt (Return (ok_response payload)) in
  (get (lit "articles") payload = None -> result = Return None)
  /\ (get (lit "articles") payload = Some (JArr []) -> result = Return None)
  /\ (get (lit "articles") payload = Some JNull -> result = Raise TypeError).
Proof.
  intros He. cbv zeta. unfold fetch_positive_news, ok_response.
  cbn [mbind pyresult_bind status_code json_body].
  change (200 =? 429) with false. change (negb (is_success 200)) with false.
  cbv iota. rewrite He.
  repeat split; intros ->; reflexivity.
Qed.

(* ===================================================================== *)
(** * Closed examples *)
(* ===================================================================== *)

Lemma validate_env_names_missing_witness :
  exists message,
    validate_env (lit "123:abc") [] (lit "k") = Some message
    /\ occurs (lit "OPENWEATHER_API_KEY") message.
Proof.
  eexists. split; [reflexivity|].
  destruct (validate_env_names_missing (lit "123:abc") [] (lit "k")) as [_ H].
  destruct (H _ eq_refl) as (_ & _ & Ho & _). apply Ho. reflexivity.
Defined.

Lemma start_handler_subscribes_witness :
  let w' := start_handler (start_from 99) (world_with {[1]} []) in
  99 ∈ current_subscribers w' /\ 1 ∈ current_subscribers w'
  /\ replies (trace w') = [99].
Proof.
  intros w'.
  destruct (start_handler_subscribes (start_from 99) (world_with {[1]} []) 99 eq_refl)
    as (Hc & _ & _ & _ & Hr & _).
  fold w' in Hc, Hr.
  split; [apply Hc; left; reflexivity|].
  split; [apply Hc; right; vm_compute; reflexivity|exact Hr].
Defined.

Lemma start_handler_twice_witness :
  let w1 := start_handler (start_from 99) (world_with {[1]} []) in
  let w2 := start_handler (start_from 99) w1 in
  current_subscribers w2 = current_subscribers w1 /\ replies (trace w2) = [99; 99].
Proof.
  intros w1 w2.
  destruct (start_handler_twice (start_from 99) (world_with {[1]} []) 99 eq_refl)
    as (Hc & _ & _ & Hr).
  split; [exact Hc|exact Hr].
Defined.


Lemma main_setup_state_witness :
  main_setup rejecting_runtime [] (lit "o") (lit "n") FUnreadable
    = (Raise RuntimeError, [])
  /\ exists w, main_setup rejecting_runtime (lit "t") (lit "o") (lit "n")
                 (FText (lit "[7, 5]")) = (Return w, [])
               /\ current_subscribers w = {[7]} ∪ ({[5]} ∪ ∅).
Proof.
  split.
  - apply (main_setup_state rejecting_runtime [] (lit "o") (lit "n") FUnreadable).
    left. reflexivity.
  - destruct (main_setup_state rejecting_runtime (lit "t") (lit "o") (lit "n")
                (FText (lit "[7, 5]"))) as [_ H].
    destruct (H ltac:(discriminate) ltac:(discriminate) ltac:(discriminate)
                ({[7]} ∪ ({[5]} ∪ ∅)) [] eq_refl) as (w & Hw & Hc & _).
    exists w. split; assumption.
Defined.

Lemma bot_data_stays_a_set_witness :
  bound_to_set (send_daily_digest rejecting_runtime (offline_env chat2_gone)
                  (fun _ => 1%nat) (world_with {[1; 2]} [start_from 99])).
Proof.
  apply (bot_data_stays_a_set rejecting_runtime (offline_env chat2_gone)
           (fun _ => 1%nat) 0 (start_from 99)).
  exists 0%nat, {[1; 2]}. split; [reflexivity|apply lookup_singleton_eq].
Defined.

Lemma file_follows_memory_witness :
  persisted rejecting_runtime
    (send_daily_digest rejecting_runtime (offline_env chat2_gone) (fun _ => 1%nat)
       (run_handlers 1 (world_with ∅ [start_from 2; start_from 99]))).
Proof.
  apply (file_follows_memory rejecting_runtime (offline_env chat2_gone)
           (fun _ => 1%nat) 0 (start_from 99)).
  apply (file_follows_memory rejecting_runtime (offline_env chat2_gone)
           (fun _ => 1%nat) 1 (start_from 99)).
  reflexivity.
Defined.

Lemma reachable_subscriber_is_kept_witness :
  1 ∈ current_subscribers
        (send_daily_digest rejecting_runtime (offline_env chat2_gone) (fun _ => 1%nat)
           (world_with {[1; 2]} [start_from 99])).
Proof.
  apply (reachable_subscriber_is_kept rejecting_runtime (offline_env chat2_gone)
           (fun _ => 1%nat) 0).
  - vm_compute. reflexivity.
  - reflexivity.
Defined.

Lemma send_daily_digest_in_order_witness :
  let e := offline_env chat2_gone in
  let message := digest_message rejecting_runtime e in
  exists order,
    trace (send_daily_digest rejecting_runtime e (fun _ => 0%nat) (world_with {[1; 2]} []))
    = [EvFetchWeather; EvFetchNews] ++ map (fun c => EvSend c message) order
        ++ [EvWrite (subscribers_text {[1]})].
Proof.
  intros e message.
  destruct (send_daily_digest_in_order rejecting_runtime e (fun _ => 0%nat)
              (world_with {[1; 2]} []) eq_refl) as [Ht _].
  - vm_compute. discriminate.
  - exists (elements (current_subscribers (world_with {[1; 2]} []))).
    rewrite Ht. vm_compute. reflexivity.
Defined.

Lemma send_daily_digest_second_cycle_witness :
  let e := offline_env chat2_gone in
  let w1 := send_daily_digest rejecting_runtime e (fun _ => 0%nat) (world_with {[1; 2]} []) in
  file (send_daily_digest rejecting_runtime e (fun _ => 0%nat) w1) = file w1.
Proof.
  intros e w1.
  apply (send_daily_digest_second_cycle rejecting_runtime e (fun _ => 0%nat)
           (world_with {[1; 2]} []) eq_refl).
Defined.

Lemma send_daily_digest_snapshot_witness :
  let e := offline_env chat2_gone in
  (99, digest_message rejecting_runtime e)
    ∈ sends (trace (send_daily_digest rejecting_runtime e
                      (fun i => if (i =? 0)%nat then 1%nat else 0%nat)
                      (world_with {[1]} [start_from 99]))).
Proof.
  intros e.
  rewrite (send_daily_digest_snapshot rejecting_runtime e
             (fun i => if (i =? 0)%nat then 1%nat else 0%nat)
             (world_with {[1]} [start_from 99])).
  - cbn [world_with trace sends omap list_omap app].
    apply list_elem_of_fmap. exists 99. split; [reflexivity|].
    apply elem_of_elements. vm_compute. reflexivity.
  - exists 0%nat, {[1]}. split; [reflexivity|apply lookup_singleton_eq].
  - vm_compute. discriminate.
Defined.

Lemma fetch_positive_news_sound_witness :
  let n := {| news_title := lit "Good news";
              news_description := lit "It rained.";
              news_url := lit "https://example.org/a" |} in
  fetch_positive_news rejecting_runtime
    (Return (news_response
       [article (lit " Good news ") (lit "It rained.") (lit "https://example.org/a")]))
  = Return (Some n)
  /\ news_title n <> [] /\ trimmed (news_title n).
Proof.
  intros n.
  assert (H : fetch_positive_news rejecting_runtime
                (Return (news_response
                   [article (lit " Good news ") (lit "It rained.")
                      (lit "https://example.org/a")]))
              = Return (Some n)) by reflexivity.
  split; [exact H|].
  destruct (fetch_positive_news_sound rejecting_runtime _ _ H)
    as (_ & Ht & _ & _ & Hs & _).
  split; [exact Ht|exact Hs].
Defined.

Lemma only_start_subscribes_witness :
  let w := world_with {[1; 2]} [start_from 99] in
  99 ∈ current_subscribers w \/ pending 99 w.
Proof.
  intros w.
  apply (only_start_subscribes rejecting_runtime (offline_env chat2_gone)
           (fun _ => 1%nat) 0 w 99).
  - exists 0%nat, {[1; 2]}. split; [reflexivity|apply lookup_singleton_eq].
  - vm_compute. reflexivity.
Defined.

Lemma fetch_positive_news_articles_edge_witness :
  fetch_positive_news rejecting_runtime
    (Return (ok_response [(lit "status", JStr (lit "ok"))]))
  = Return None.
Proof.
  destruct (fetch_positive_news_articles_edge rejecting_runtime
              [(lit "status", JStr (lit "ok"))] eq_refl) as (H & _ & _).
  apply H. reflexivity.
Defined.
